(** * PublicServiceFeedbackFHE: the encrypted-aggregate lifecycle

    A shallow embedding of [contracts/PublicServiceFeedbackFHE.sol]:
    storage as a record of finite maps, every external function as a
    computation in a state-and-revert monad, storage pointers as reads and
    writes of the store they alias, and the FHE co-processor through the
    plaintext meaning of its handles. *)

From Stdlib Require Import ZArith List Bool Lia.
From Stdlib.Strings Require Import Byte.
From stdpp Require Import base option gmap list sorting.
Import ListNotations.

Open Scope Z_scope.

(** ** Machine integers *)

Definition uint32_modulus : Z := 2 ^ 32.
Definition uint256_max : Z := 2 ^ 256 - 1.

(** Reduction of an integer to the 32-bit width of [euint32] and [uint32]. *)
Definition wrap32 (z : Z) : Z := z mod uint32_modulus.

(** ** The FHE library *)

(** Modelled from the spec: the library [@fhevm/solidity/lib/FHE.sol] is
    imported by the contract and is not part of the repository.  The spec
    (section 6) describes a ciphertext handle as an opaque 32-bit-width
    encrypted integer, manipulated only through add/sub/mul/div and an
    explicit constant constructor, whose results decrypt to what the same
    computation gives on plaintexts (glossary).  A handle is therefore
    modelled by the plaintext it decrypts to: [None] is the null handle of a
    storage slot that was never written, [Some v] a handle to a ciphertext of
    [v], with [0 <= v < 2^32].  Arithmetic wraps at 32 bits.  An operand that
    is the null handle counts as an encryption of zero.  The quotient by an
    encrypted zero is not fixed by the spec; the model returns the largest
    32-bit value, and no theorem below depends on that choice. *)
Module FHE.

(** Modelled from the spec: the handle type, by its plaintext. *)
Definition euint32 : Type := option Z.

(** Modelled from the spec: the plaintext behind a handle. *)
Definition plain (h : euint32) : Z := default 0 h.

(** Modelled from the spec: a handle is initialized once it was produced by
    the library; the null handle is not. *)
Definition isInitialized (h : euint32) : bool :=
  match h with Some _ => true | None => false end.

(** Modelled from the spec: the constant constructor. *)
Definition asEuint32 (v : Z) : euint32 := Some (wrap32 v).

(** Modelled from the spec: homomorphic addition at 32 bits. *)
Definition add (a b : euint32) : euint32 := Some (wrap32 (plain a + plain b)).

(** Modelled from the spec: homomorphic subtraction at 32 bits. *)
Definition sub (a b : euint32) : euint32 := Some (wrap32 (plain a - plain b)).

(** Modelled from the spec: homomorphic multiplication at 32 bits. *)
Definition mul (a b : euint32) : euint32 := Some (wrap32 (plain a * plain b)).

(** Modelled from the spec: homomorphic integer division. *)
Definition div (a b : euint32) : euint32 :=
  if plain b =? 0 then Some (uint32_modulus - 1)
  else Some (wrap32 (plain a / plain b)).

(** Modelled from the spec: an encrypted boolean, by its plaintext; the
    null handle counts as false. *)
Definition ebool : Type := option bool.

(** Modelled from the spec: the plaintext behind an encrypted boolean. *)
Definition plainb (h : ebool) : bool := default false h.

(** Modelled from the spec: homomorphic comparison. *)
Definition lt (a b : euint32) : ebool := Some (plain a <? plain b).

(** Modelled from the spec: homomorphic maximum. *)
Definition max (a b : euint32) : euint32 := Some (Z.max (plain a) (plain b)).

(** Modelled from the spec: homomorphic selection. *)
Definition cmux (c : ebool) (a b : euint32) : euint32 :=
  Some (if plainb c then plain a else plain b).

End FHE.

(** ** Storage layout *)

Record EncryptedFeedback := mkFeedback {
  id : Z;
  citizen : Z;
  encryptedServiceType : FHE.euint32;
  encryptedRating : FHE.euint32;
  encryptedResponseTime : FHE.euint32;
  encryptedComment : FHE.euint32;
  timestamp : Z
}.

Record ServiceAggregate := mkAggregate {
  encryptedTotalRating : FHE.euint32;
  encryptedResponseAvg : FHE.euint32;
  encryptedFeedbackCount : FHE.euint32;
  encryptedImprovementScore : FHE.euint32
}.

Record DecryptedAggregate := mkDecrypted {
  avgRating : Z;
  avgResponseTime : Z;
  dFeedbackCount : Z;
  improvementScore : Z;
  isRevealed : bool
}.

Inductive Event :=
| FeedbackSubmitted (fid : Z) (who : Z)
| AggregationUpdated (serviceType : Z)
| AggregateDecrypted (serviceType : Z).

(** A Solidity mapping is total: a key that was never written reads as the
    zero value of the value type.  The maps below are finite maps read
    through such defaults ([feedbackAt], [aggregateAt], ...). *)
Record State := mkState {
  feedbackCount : Z;
  feedbacks : gmap Z EncryptedFeedback;
  serviceAggregates : gmap Z ServiceAggregate;
  decryptedAggregates : gmap Z DecryptedAggregate;
  citizenFeedbacks : gmap Z (list Z);
  authorizedManagers : gmap Z bool;
  requestToFeedbackId : gmap Z Z;
  requestToServiceType : gmap Z Z;
  govAdmin : Z;
  events : list Event;
  (* the decryption oracle's side of [FHE.requestDecryption] *)
  counterRequest : Z;
  oracleRequests : gmap Z (list FHE.euint32)
}.

Definition zeroFeedback : EncryptedFeedback :=
  mkFeedback 0 0 None None None None 0.

Definition zeroAggregate : ServiceAggregate :=
  mkAggregate None None None None.

Definition zeroDecrypted : DecryptedAggregate :=
  mkDecrypted 0 0 0 0 false.

Definition feedbackAt (s : State) (k : Z) : EncryptedFeedback :=
  default zeroFeedback (feedbacks s !! k).

Definition aggregateAt (s : State) (k : Z) : ServiceAggregate :=
  default zeroAggregate (serviceAggregates s !! k).

Definition decryptedAt (s : State) (k : Z) : DecryptedAggregate :=
  default zeroDecrypted (decryptedAggregates s !! k).

Definition citizenFeedbacksAt (s : State) (a : Z) : list Z :=
  default [] (citizenFeedbacks s !! a).

Definition isManager (s : State) (a : Z) : bool :=
  default false (authorizedManagers s !! a).

Definition serviceTypeOfRequest (s : State) (r : Z) : Z :=
  default 0 (requestToServiceType s !! r).

(** Field updates of the storage record. *)
Definition set_feedbackCount (v : Z) (s : State) : State :=
  mkState v (feedbacks s) (serviceAggregates s) (decryptedAggregates s)
    (citizenFeedbacks s) (authorizedManagers s) (requestToFeedbackId s)
    (requestToServiceType s) (govAdmin s) (events s)
    (counterRequest s) (oracleRequests s).

Definition set_feedbacks (v : gmap Z EncryptedFeedback) (s : State) : State :=
  mkState (feedbackCount s) v (serviceAggregates s) (decryptedAggregates s)
    (citizenFeedbacks s) (authorizedManagers s) (requestToFeedbackId s)
    (requestToServiceType s) (govAdmin s) (events s)
    (counterRequest s) (oracleRequests s).

Definition set_serviceAggregates (v : gmap Z ServiceAggregate) (s : State) : State :=
  mkState (feedbackCount s) (feedbacks s) v (decryptedAggregates s)
    (citizenFeedbacks s) (authorizedManagers s) (requestToFeedbackId s)
    (requestToServiceType s) (govAdmin s) (events s)
    (counterRequest s) (oracleRequests s).

Definition set_decryptedAggregates (v : gmap Z DecryptedAggregate) (s : State) : State :=
  mkState (feedbackCount s) (feedbacks s) (serviceAggregates s) v
    (citizenFeedbacks s) (authorizedManagers s) (requestToFeedbackId s)
    (requestToServiceType s) (govAdmin s) (events s)
    (counterRequest s) (oracleRequests s).

Definition set_citizenFeedbacks (v : gmap Z (list Z)) (s : State) : State :=
  mkState (feedbackCount s) (feedbacks s) (serviceAggregates s)
    (decryptedAggregates s) v (authorizedManagers s) (requestToFeedbackId s)
    (requestToServiceType s) (govAdmin s) (events s)
    (counterRequest s) (oracleRequests s).

Definition set_authorizedManagers (v : gmap Z bool) (s : State) : State :=
  mkState (feedbackCount s) (feedbacks s) (serviceAggregates s)
    (decryptedAggregates s) (citizenFeedbacks s) v (requestToFeedbackId s)
    (requestToServiceType s) (govAdmin s) (events s)
    (counterRequest s) (oracleRequests s).

Definition set_requestToServiceType (v : gmap Z Z) (s : State) : State :=
  mkState (feedbackCount s) (feedbacks s) (serviceAggregates s)
    (decryptedAggregates s) (citizenFeedbacks s) (authorizedManagers s)
    (requestToFeedbackId s) v (govAdmin s) (events s)
    (counterRequest s) (oracleRequests s).

Definition set_events (v : list Event) (s : State) : State :=
  mkState (feedbackCount s) (feedbacks s) (serviceAggregates s)
    (decryptedAggregates s) (citizenFeedbacks s) (authorizedManagers s)
    (requestToFeedbackId s) (requestToServiceType s) (govAdmin s) v
    (counterRequest s) (oracleRequests s).

Definition set_oracle (c : Z) (v : gmap Z (list FHE.euint32)) (s : State) : State :=
  mkState (feedbackCount s) (feedbacks s) (serviceAggregates s)
    (decryptedAggregates s) (citizenFeedbacks s) (authorizedManagers s)
    (requestToFeedbackId s) (requestToServiceType s) (govAdmin s) (events s)
    c v.

(** ** Execution monad

    A call either completes with a value and a new storage, or reverts with
    an error, in which case the EVM discards every write the call made. *)

Inductive Error :=
| NotAdmin          (* require(..., "Not admin") *)
| Unauthorized      (* require(..., "Not authorized") *)
| NotFound          (* require(..., "No data") *)
| AlreadyRevealed   (* require(..., "Already decrypted") *)
| InvalidRequest    (* require(..., "Invalid request") *)
| ProofInvalid      (* FHE.checkSignatures reverts *)
| AbiDecodeError    (* abi.decode reverts on malformed input *)
| PanicOverflow     (* Panic(0x11) *)
| PanicDivByZero.   (* Panic(0x12) *)

Inductive Outcome (A : Type) :=
| Success (a : A) (s : State)
| Reverted (e : Error).

Arguments Success {A} a s.
Arguments Reverted {A} e.

Definition contract (A : Type) : Type := State -> Outcome A.

Definition ret {A} (a : A) : contract A := fun s => Success a s.

Definition bind {A B} (c : contract A) (k : A -> contract B) : contract B :=
  fun s => match c s with
           | Success a s' => k a s'
           | Reverted e => Reverted e
           end.

Definition revert {A} (e : Error) : contract A := fun _ => Reverted e.

Definition require (b : bool) (e : Error) : contract unit :=
  if b then ret tt else revert e.

Definition gets {A} (f : State -> A) : contract A := fun s => Success (f s) s.

Definition modify (f : State -> State) : contract unit :=
  fun s => Success tt (f s).

Definition emit (ev : Event) : contract unit :=
  modify (fun s => set_events (events s ++ [ev]) s).

Notation "'let*' x ':=' c 'in' k" := (bind c (fun x => k))
  (at level 10, x pattern, c at level 100, k at level 200).
Notation "c ';;' k" := (bind c (fun _ => k))
  (at level 100, k at level 200, right associativity).

(** The call environment of a transaction. *)
Record Env := mkEnv { msg_sender : Z; block_timestamp : Z }.

(** ** ABI decoding of the cleartext bundle

    [abi.decode(cleartexts, (uint32, uint32, uint32, uint32))] reads four
    32-byte big-endian words from the head of the byte string.  It reverts
    when fewer than 128 bytes are present or when a word does not fit its
    [uint32] type; bytes after the fourth word are ignored. *)

Definition be_to_Z (bs : list byte) : Z :=
  fold_left (fun acc b => acc * 256 + Z.of_N (Byte.to_N b)) bs 0.

Definition abi_word (bs : list byte) (i : nat) : Z :=
  be_to_Z (take 32 (drop (32 * i) bs)).

Definition abi_decode_uint32x4 (bs : list byte) : option (Z * Z * Z * Z) :=
  if (length bs <? 128)%nat then None
  else
    let w0 := abi_word bs 0 in
    let w1 := abi_word bs 1 in
    let w2 := abi_word bs 2 in
    let w3 := abi_word bs 3 in
    if forallb (fun w => w <? uint32_modulus) [w0; w1; w2; w3]
    then Some (w0, w1, w2, w3)
    else None.

(** The matching encoder, [abi.encode] of four [uint32] values, used to
    build concrete bundles. *)
Definition byte_of_Z (z : Z) : byte :=
  default "000"%byte (Byte.of_N (Z.to_N (z mod 256))).

Definition abi_encode_uint32 (v : Z) : list byte :=
  repeat "000"%byte 28 ++
  [byte_of_Z (v / 16777216); byte_of_Z (v / 65536); byte_of_Z (v / 256); byte_of_Z v].

Definition abi_encode_uint32x4 (a b c d : Z) : list byte :=
  abi_encode_uint32 a ++ abi_encode_uint32 b ++
  abi_encode_uint32 c ++ abi_encode_uint32 d.

(** ** Storage accessors

    [ServiceAggregate storage aggregate = serviceAggregates[k]] and
    [DecryptedAggregate storage d = decryptedAggregates[k]] are pointers into
    storage: a read through them sees the latest write, and a write through
    them changes the mapping entry.  Each field access below is therefore a
    read or write of the store itself. *)

Definition readAggregate {A} (k : Z) (field : ServiceAggregate -> A) : contract A :=
  gets (fun s => field (aggregateAt s k)).

Definition writeAggregate (k : Z) (upd : ServiceAggregate -> ServiceAggregate) :
  contract unit :=
  modify (fun s => set_serviceAggregates
                     (<[k := upd (aggregateAt s k)]> (serviceAggregates s)) s).

Definition with_encryptedTotalRating (v : FHE.euint32) (a : ServiceAggregate) :=
  mkAggregate v (encryptedResponseAvg a) (encryptedFeedbackCount a)
    (encryptedImprovementScore a).

Definition with_encryptedResponseAvg (v : FHE.euint32) (a : ServiceAggregate) :=
  mkAggregate (encryptedTotalRating a) v (encryptedFeedbackCount a)
    (encryptedImprovementScore a).

Definition with_encryptedFeedbackCount (v : FHE.euint32) (a : ServiceAggregate) :=
  mkAggregate (encryptedTotalRating a) (encryptedResponseAvg a) v
    (encryptedImprovementScore a).

Definition with_encryptedImprovementScore (v : FHE.euint32) (a : ServiceAggregate) :=
  mkAggregate (encryptedTotalRating a) (encryptedResponseAvg a)
    (encryptedFeedbackCount a) v.

Definition with_encryptedServiceType (v : FHE.euint32) (f : EncryptedFeedback) :=
  mkFeedback (id f) (citizen f) v (encryptedRating f)
    (encryptedResponseTime f) (encryptedComment f) (timestamp f).

Definition readDecrypted {A} (k : Z) (field : DecryptedAggregate -> A) : contract A :=
  gets (fun s => field (decryptedAt s k)).

Definition writeDecrypted (k : Z) (upd : DecryptedAggregate -> DecryptedAggregate) :
  contract unit :=
  modify (fun s => set_decryptedAggregates
                     (<[k := upd (decryptedAt s k)]> (decryptedAggregates s)) s).

Definition with_avgRating (v : Z) (d : DecryptedAggregate) :=
  mkDecrypted v (avgResponseTime d) (dFeedbackCount d) (improvementScore d)
    (isRevealed d).

Definition with_avgResponseTime (v : Z) (d : DecryptedAggregate) :=
  mkDecrypted (avgRating d) v (dFeedbackCount d) (improvementScore d)
    (isRevealed d).

Definition with_feedbackCount (v : Z) (d : DecryptedAggregate) :=
  mkDecrypted (avgRating d) (avgResponseTime d) v (improvementScore d)
    (isRevealed d).

Definition with_improvementScore (v : Z) (d : DecryptedAggregate) :=
  mkDecrypted (avgRating d) (avgResponseTime d) (dFeedbackCount d) v
    (isRevealed d).

Definition with_isRevealed (v : bool) (d : DecryptedAggregate) :=
  mkDecrypted (avgRating d) (avgResponseTime d) (dFeedbackCount d)
    (improvementScore d) v.

(** Modelled from the spec: [FHE.requestDecryption] belongs to the library
    and the decryption oracle, which are not part of the repository; a
    request records the handles to decrypt and mints its id from a monotonic
    counter (spec, section 5 (b)). *)
Definition requestDecryption (ciphertexts : list FHE.euint32) : contract Z :=
  fun s =>
    let reqId := counterRequest s in
    Success reqId
      (set_oracle (reqId + 1) (<[reqId := ciphertexts]> (oracleRequests s)) s).

(** ** The contract *)

Section Contract.

(** [FHE.checkSignatures(requestId, cleartexts, proof)] is the external
    signature check of the decryption oracle: it returns normally when the
    proof verifies and reverts otherwise.  The verdict is a parameter. *)
Variable checkSignatures : Z -> list byte -> list byte -> bool.

Definition onlyAdmin (env : Env) : contract unit :=
  let* admin := gets govAdmin in
  require (msg_sender env =? admin) NotAdmin.

Definition onlyManager (env : Env) : contract unit :=
  let* ok := gets (fun s => isManager s (msg_sender env)) in
  require ok Unauthorized.

(** [constructor()] *)
Definition constructor (env : Env) : State :=
  mkState 0 ∅ ∅ ∅ ∅ ∅ ∅ ∅ (msg_sender env) [] 0 ∅.

Definition authorizeManager (env : Env) (manager : Z) : contract unit :=
  onlyAdmin env ;;
  modify (fun s => set_authorizedManagers
                     (<[manager := true]> (authorizedManagers s)) s).

Definition submitEncryptedFeedback (env : Env)
    (encServiceType encRating encResponseTime encComment : FHE.euint32) :
  contract unit :=
  let* old := gets feedbackCount in
  require (old <? uint256_max) PanicOverflow ;;
  modify (set_feedbackCount (old + 1)) ;;
  let* newId := gets feedbackCount in
  modify (fun s => set_feedbacks
    (<[newId := mkFeedback newId (msg_sender env) encServiceType encRating
                  encResponseTime encComment (block_timestamp env)]>
       (feedbacks s)) s) ;;
  modify (fun s => set_citizenFeedbacks
    (<[msg_sender env := citizenFeedbacksAt s (msg_sender env) ++ [newId]]>
       (citizenFeedbacks s)) s) ;;
  emit (FeedbackSubmitted newId (msg_sender env)).

Definition calculateImprovementScore
    (rating responseTime currentScore : FHE.euint32) : FHE.euint32 :=
  let ratingImpact := FHE.mul rating (FHE.asEuint32 20) in
  let responseImpact :=
    FHE.sub (FHE.asEuint32 100) (FHE.div responseTime (FHE.asEuint32 10)) in
  let newContribution :=
    FHE.div (FHE.add ratingImpact responseImpact) (FHE.asEuint32 2) in
  FHE.div (FHE.add currentScore newContribution) (FHE.asEuint32 2).

Definition updateServiceAggregates (env : Env) (feedbackId : Z) : contract unit :=
  let* feedback := gets (fun s => feedbackAt s feedbackId) in
  let serviceType := 1 in
  (* Initialize if first feedback *)
  let* cnt0 := readAggregate serviceType encryptedFeedbackCount in
  (if negb (FHE.isInitialized cnt0) then
     writeAggregate serviceType (with_encryptedTotalRating (FHE.asEuint32 0)) ;;
     writeAggregate serviceType (with_encryptedResponseAvg (FHE.asEuint32 0)) ;;
     writeAggregate serviceType (with_encryptedFeedbackCount (FHE.asEuint32 0)) ;;
     writeAggregate serviceType (with_encryptedImprovementScore (FHE.asEuint32 0))
   else ret tt) ;;
  (* Update aggregates *)
  let* total := readAggregate serviceType encryptedTotalRating in
  writeAggregate serviceType
    (with_encryptedTotalRating (FHE.add total (encryptedRating feedback))) ;;
  let* cnt := readAggregate serviceType encryptedFeedbackCount in
  let newCount := FHE.add cnt (FHE.asEuint32 1) in
  writeAggregate serviceType (with_encryptedFeedbackCount newCount) ;;
  (* Update average response time *)
  let* avg := readAggregate serviceType encryptedResponseAvg in
  let* cntNow := readAggregate serviceType encryptedFeedbackCount in
  let totalResponse :=
    FHE.add (FHE.mul avg cntNow) (encryptedResponseTime feedback) in
  writeAggregate serviceType
    (with_encryptedResponseAvg (FHE.div totalResponse newCount)) ;;
  (* Update improvement score *)
  let* score := readAggregate serviceType encryptedImprovementScore in
  writeAggregate serviceType
    (with_encryptedImprovementScore
       (calculateImprovementScore (encryptedRating feedback)
          (encryptedResponseTime feedback) score)) ;;
  emit (AggregationUpdated serviceType).

Definition requestAggregateDecryption (env : Env) (serviceType : Z) :
  contract unit :=
  onlyManager env ;;
  let* cnt := readAggregate serviceType encryptedFeedbackCount in
  require (FHE.isInitialized cnt) NotFound ;;
  let* revealed := readDecrypted serviceType isRevealed in
  require (negb revealed) AlreadyRevealed ;;
  let* c0 := readAggregate serviceType encryptedTotalRating in
  let* c1 := readAggregate serviceType encryptedResponseAvg in
  let* c2 := readAggregate serviceType encryptedFeedbackCount in
  let* c3 := readAggregate serviceType encryptedImprovementScore in
  let* reqId := requestDecryption [c0; c1; c2; c3] in
  modify (fun s => set_requestToServiceType
                     (<[reqId := serviceType]> (requestToServiceType s)) s).

Definition decryptAggregateData (env : Env)
    (requestId : Z) (cleartexts proof : list byte) : contract unit :=
  let* serviceType := gets (fun s => serviceTypeOfRequest s requestId) in
  require (negb (serviceType =? 0)) InvalidRequest ;;
  let* revealed := readDecrypted serviceType isRevealed in
  require (negb revealed) AlreadyRevealed ;;
  require (checkSignatures requestId cleartexts proof) ProofInvalid ;;
  match abi_decode_uint32x4 cleartexts with
  | None => revert AbiDecodeError
  | Some (totalRating, avgResponse, count, improvement) =>
      require (negb (count =? 0)) PanicDivByZero ;;
      writeDecrypted serviceType (with_avgRating (totalRating / count)) ;;
      writeDecrypted serviceType (with_avgResponseTime avgResponse) ;;
      writeDecrypted serviceType (with_feedbackCount count) ;;
      writeDecrypted serviceType (with_improvementScore improvement) ;;
      writeDecrypted serviceType (with_isRevealed true) ;;
      emit (AggregateDecrypted serviceType)
  end.

Definition getEncryptedAggregate (s : State) (serviceType : Z) :
  FHE.euint32 * FHE.euint32 * FHE.euint32 * FHE.euint32 :=
  let a := aggregateAt s serviceType in
  (encryptedTotalRating a, encryptedResponseAvg a,
   encryptedFeedbackCount a, encryptedImprovementScore a).

Definition getDecryptedAggregate (s : State) (serviceType : Z) :
  Z * Z * Z * Z * bool :=
  let a := decryptedAt s serviceType in
  (avgRating a, avgResponseTime a, dFeedbackCount a, improvementScore a,
   isRevealed a).

(** *** Transactions *)

Inductive Call :=
| AuthorizeManager (manager : Z)
| SubmitEncryptedFeedback (encServiceType encRating encResponseTime encComment : FHE.euint32)
| UpdateServiceAggregates (feedbackId : Z)
| RequestAggregateDecryption (serviceType : Z)
| DecryptAggregateData (requestId : Z) (cleartexts proof : list byte).

Definition dispatch (env : Env) (c : Call) : contract unit :=
  match c with
  | AuthorizeManager m => authorizeManager env m
  | SubmitEncryptedFeedback a b c d => submitEncryptedFeedback env a b c d
  | UpdateServiceAggregates i => updateServiceAggregates env i
  | RequestAggregateDecryption k => requestAggregateDecryption env k
  | DecryptAggregateData r ct pf => decryptAggregateData env r ct pf
  end.

(** The storage after a transaction: the writes of a call that completes,
    the storage as it was when the call reverts. *)
Definition stateAfter {A} (c : contract A) (s : State) : State :=
  match c s with
  | Success _ s' => s'
  | Reverted _ => s
  end.

Definition transact (s : State) (tx : Env * Call) : State :=
  stateAfter (dispatch (fst tx) (snd tx)) s.

Definition run (s : State) (txs : list (Env * Call)) : State :=
  fold_left transact txs s.

Definition reachable (s : State) : Prop :=
  exists deployer txs, s = run (constructor deployer) txs.

End Contract.

(** ** Closed forms of the storage effects *)

(** The aggregate as the update sees it after its initialisation branch. *)
Definition initAggregate (a : ServiceAggregate) : ServiceAggregate :=
  if FHE.isInitialized (encryptedFeedbackCount a) then a
  else mkAggregate (FHE.asEuint32 0) (FHE.asEuint32 0)
         (FHE.asEuint32 0) (FHE.asEuint32 0).

(** The aggregate that [updateServiceAggregates] leaves in storage.  The
    response average is computed after [encryptedFeedbackCount] was
    overwritten, so the product reads the new count. *)
Definition updatedAggregate (f : EncryptedFeedback) (a : ServiceAggregate) :
  ServiceAggregate :=
  let a0 := initAggregate a in
  let newCount := FHE.add (encryptedFeedbackCount a0) (FHE.asEuint32 1) in
  mkAggregate
    (FHE.add (encryptedTotalRating a0) (encryptedRating f))
    (FHE.div (FHE.add (FHE.mul (encryptedResponseAvg a0) newCount)
                (encryptedResponseTime f)) newCount)
    newCount
    (calculateImprovementScore (encryptedRating f) (encryptedResponseTime f)
       (encryptedImprovementScore a0)).

Definition updatedState (fid : Z) (s : State) : State :=
  set_events (events s ++ [AggregationUpdated 1])
    (set_serviceAggregates
       (<[1 := updatedAggregate (feedbackAt s fid) (aggregateAt s 1)]>
          (serviceAggregates s)) s).

Definition requestedState (k : Z) (s : State) : State :=
  let a := aggregateAt s k in
  let reqId := counterRequest s in
  set_requestToServiceType (<[reqId := k]> (requestToServiceType s))
    (set_oracle (reqId + 1)
       (<[reqId := [encryptedTotalRating a; encryptedResponseAvg a;
                    encryptedFeedbackCount a; encryptedImprovementScore a]]>
          (oracleRequests s)) s).

Definition revealedState (k totalRating avgResponse count improvement : Z)
    (s : State) : State :=
  set_events (events s ++ [AggregateDecrypted k])
    (set_decryptedAggregates
       (<[k := mkDecrypted (totalRating / count) avgResponse count improvement true]>
          (decryptedAggregates s)) s).

(** ** The update rule in the words of the specification

    Section 4.2, steps 1 to 5, over the same homomorphic operations:
    zero-initialise, [totalRating += rating], [count' = count + 1],
    [responseAvg' = (responseAvg * count + responseTime) / count'], and the
    twice-halved improvement score. *)
Definition spec_updatedAggregate (rating responseTime : FHE.euint32)
    (a : ServiceAggregate) : ServiceAggregate :=
  let a0 := initAggregate a in
  let count' := FHE.add (encryptedFeedbackCount a0) (FHE.asEuint32 1) in
  mkAggregate
    (FHE.add (encryptedTotalRating a0) rating)
    (FHE.div (FHE.add (FHE.mul (encryptedResponseAvg a0) (encryptedFeedbackCount a0))
                responseTime) count')
    count'
    (FHE.div
       (FHE.add
          (FHE.div
             (FHE.add (FHE.mul rating (FHE.asEuint32 20))
                (FHE.sub (FHE.asEuint32 100)
                   (FHE.div responseTime (FHE.asEuint32 10))))
             (FHE.asEuint32 2))
          (encryptedImprovementScore a0))
       (FHE.asEuint32 2)).

(** The true running mean of the response times submitted so far. *)
Definition running_mean (responseTimes : list Z) : Z :=
  fold_right Z.add 0 responseTimes / Z.of_nat (length responseTimes).

(** Number of aggregate updates in a sequence of transactions. *)
Definition isUpdate (tx : Env * Call) : bool :=
  match snd tx with UpdateServiceAggregates _ => true | _ => false end.

Definition count_updates (txs : list (Env * Call)) : Z :=
  Z.of_nat (length (filter (fun tx => isUpdate tx = true) txs)).

(** ** Invariants of reachable storage *)

(** An aggregate whose count was never written was never written at all. *)
Definition aggregate_ok (a : ServiceAggregate) : Prop :=
  FHE.isInitialized (encryptedFeedbackCount a) = false -> a = zeroAggregate.

Definition invariant (s : State) : Prop :=
  (forall k, aggregate_ok (aggregateAt s k)) /\
  (forall k, isRevealed (decryptedAt s k) = true ->
             k <> 0 /\
             FHE.isInitialized (encryptedFeedbackCount (aggregateAt s k)) = true) /\
  (forall r, serviceTypeOfRequest s r <> 0 ->
             FHE.isInitialized
               (encryptedFeedbackCount (aggregateAt s (serviceTypeOfRequest s r))) = true).

(** ** A concrete deployment

    The scenario of the specification's section 8: three feedback records
    for service type 1 with ratings 5, 3, 4 and response times 10, 30, 20. *)

(** A signature check that accepts exactly the non-empty proofs. *)
Definition acceptNonEmpty (requestId : Z) (cleartexts proof : list byte) : bool :=
  match proof with [] => false | _ :: _ => true end.

Definition adminEnv : Env := mkEnv 100 1000.
Definition managerEnv : Env := mkEnv 200 1001.
Definition citizenEnv : Env := mkEnv 300 1002.
Definition outsiderEnv : Env := mkEnv 400 1003.

Definition goodProof : list byte := ["001"%byte].
Definition badProof : list byte := [].

Definition txsSubmitted : list (Env * Call) :=
  [ (adminEnv, AuthorizeManager 200);
    (citizenEnv, SubmitEncryptedFeedback (Some 1) (Some 5) (Some 10) (Some 0));
    (citizenEnv, SubmitEncryptedFeedback (Some 1) (Some 3) (Some 30) (Some 0));
    (citizenEnv, SubmitEncryptedFeedback (Some 1) (Some 4) (Some 20) (Some 0)) ].

Definition txsUpdated1 : list (Env * Call) :=
  txsSubmitted ++ [ (citizenEnv, UpdateServiceAggregates 1) ].

Definition txsUpdated2 : list (Env * Call) :=
  txsUpdated1 ++ [ (citizenEnv, UpdateServiceAggregates 2) ].

Definition txsUpdated3 : list (Env * Call) :=
  txsUpdated2 ++ [ (citizenEnv, UpdateServiceAggregates 3) ].

Definition txsRequested : list (Env * Call) :=
  txsUpdated3 ++ [ (managerEnv, RequestAggregateDecryption 1);
                   (managerEnv, RequestAggregateDecryption 1) ].

Definition bundle : list byte := abi_encode_uint32x4 12 31 3 76.

Definition txsRevealed : list (Env * Call) :=
  txsRequested ++ [ (outsiderEnv, DecryptAggregateData 0 bundle goodProof) ].

Definition stateOf (txs : list (Env * Call)) : State :=
  run acceptNonEmpty (constructor adminEnv) txs.

(** Transactions sent after the reveal: one more feedback, its aggregation,
    a further request and the delivery of the second pending request. *)
Definition txsLater : list (Env * Call) :=
  [ (citizenEnv, SubmitEncryptedFeedback (Some 1) (Some 2) (Some 50) (Some 0));
    (citizenEnv, UpdateServiceAggregates 4);
    (managerEnv, RequestAggregateDecryption 1);
    (outsiderEnv, DecryptAggregateData 1 bundle goodProof) ].

(** ** Read-only analytics

    The [view] functions of the contract, as functions of the storage.  The
    loops [for (uint32 i = 1; i <= 5; i++)] run over [serviceTypeRange]. *)

Definition serviceTypeRange : list Z := [1; 2; 3; 4; 5].

Definition identifyPriorityAreas (s : State) : FHE.euint32 :=
  fold_left
    (fun maxPriority i =>
       if FHE.isInitialized (encryptedImprovementScore (aggregateAt s i))
       then
         let score := encryptedImprovementScore (aggregateAt s i) in
         FHE.max maxPriority score
       else maxPriority)
    serviceTypeRange (FHE.asEuint32 0).

Definition detectServiceDegradation (s : State) (serviceType : Z) : FHE.ebool :=
  let aggregate := aggregateAt s serviceType in
  let avgRating :=
    FHE.div (encryptedTotalRating aggregate) (encryptedFeedbackCount aggregate) in
  FHE.lt avgRating (FHE.asEuint32 3).

Definition getCitizenFeedbacks (s : State) (who : Z) : list Z :=
  citizenFeedbacksAt s who.

Definition calculateServiceEfficiency (s : State) (serviceType : Z) : FHE.euint32 :=
  let aggregate := aggregateAt s serviceType in
  let avgRating :=
    FHE.div (encryptedTotalRating aggregate) (encryptedFeedbackCount aggregate) in
  FHE.add
    (FHE.mul avgRating (FHE.asEuint32 20))
    (FHE.sub (FHE.asEuint32 100)
       (FHE.div (encryptedResponseAvg aggregate) (FHE.asEuint32 10))).

Definition trackImprovementProgress (s : State) (serviceType : Z) : FHE.euint32 :=
  let aggregate := aggregateAt s serviceType in
  let baseline := FHE.asEuint32 70 in
  FHE.sub (encryptedImprovementScore aggregate) baseline.

Definition generateActionRecommendations (s : State) (serviceType : Z) :
  FHE.euint32 :=
  let aggregate := aggregateAt s serviceType in
  let avgRating :=
    FHE.div (encryptedTotalRating aggregate) (encryptedFeedbackCount aggregate) in
  FHE.cmux (FHE.lt avgRating (FHE.asEuint32 3))
    (FHE.asEuint32 1)
    (FHE.cmux (FHE.lt avgRating (FHE.asEuint32 4))
       (FHE.asEuint32 2)
       (FHE.asEuint32 3)).

Definition measureCitizenSatisfaction (s : State) : FHE.euint32 :=
  let '(totalSatisfaction, totalCount) :=
    fold_left
      (fun acc i =>
         let '(totalSatisfaction, totalCount) := acc in
         if FHE.isInitialized (encryptedFeedbackCount (aggregateAt s i))
         then
           let a := aggregateAt s i in
           let serviceSatisfaction :=
             FHE.div (encryptedTotalRating a) (encryptedFeedbackCount a) in
           (FHE.add totalSatisfaction
              (FHE.mul serviceSatisfaction (encryptedFeedbackCount a)),
            FHE.add totalCount (encryptedFeedbackCount a))
         else acc)
      serviceTypeRange (FHE.asEuint32 0, FHE.asEuint32 0) in
  FHE.div totalSatisfaction totalCount.

Definition calculatePublicTrustIndex (s : State) : FHE.euint32 :=
  let '(totalTrust, serviceCount) :=
    fold_left
      (fun acc i =>
         let '(totalTrust, serviceCount) := acc in
         if FHE.isInitialized (encryptedImprovementScore (aggregateAt s i))
         then (FHE.add totalTrust (encryptedImprovementScore (aggregateAt s i)),
               serviceCount + 1)
         else acc)
      serviceTypeRange (FHE.asEuint32 0, 0) in
  if 0 <? serviceCount
  then FHE.div totalTrust (FHE.asEuint32 serviceCount)
  else FHE.asEuint32 0.

(** ** Closed forms of the ledger and authorisation effects *)

Definition authorizedState (manager : Z) (s : State) : State :=
  set_authorizedManagers (<[manager := true]> (authorizedManagers s)) s.

Definition submittedState (env : Env)
    (encServiceType encRating encResponseTime encComment : FHE.euint32)
    (s : State) : State :=
  let newId := feedbackCount s + 1 in
  let who := msg_sender env in
  set_events (events s ++ [FeedbackSubmitted newId who])
    (set_citizenFeedbacks
       (<[who := citizenFeedbacksAt s who ++ [newId]]> (citizenFeedbacks s))
       (set_feedbacks
          (<[newId := mkFeedback newId who encServiceType encRating
                        encResponseTime encComment (block_timestamp env)]>
             (feedbacks s))
          (set_feedbackCount newId s))).

(** ** Further invariants of reachable storage *)

Definition in_uint32 (z : Z) : Prop := 0 <= z < uint32_modulus.

(** A handle produced by the library: initialised, plaintext in range. *)
Definition handle_ok (h : FHE.euint32) : Prop :=
  exists v, h = Some v /\ in_uint32 v.

Definition isSubmittedEvent (e : Event) : bool :=
  match e with FeedbackSubmitted _ _ => true | _ => false end.

Definition isDecryptedEvent (k : Z) (e : Event) : bool :=
  match e with AggregateDecrypted k' => k' =? k | _ => false end.

(** The feedback ledger: ids are exactly [1 .. feedbackCount], each record
    carries its own id, and the per-citizen index lists, in increasing
    order, exactly the ids of the records of that citizen. *)
Definition ledger_invariant (s : State) : Prop :=
  0 <= feedbackCount s /\
  (forall k, is_Some (feedbacks s !! k) <-> 1 <= k <= feedbackCount s) /\
  (forall k f, feedbacks s !! k = Some f -> id f = k) /\
  (forall who k, k ∈ citizenFeedbacksAt s who <->
                 exists f, feedbacks s !! k = Some f /\ citizen f = who) /\
  (forall who, StronglySorted Z.lt (citizenFeedbacksAt s who)) /\
  Z.of_nat (length (List.filter isSubmittedEvent (events s))) = feedbackCount s.

(** The aggregates: only key 1 is ever written, and a written aggregate has
    its four fields initialised with plaintexts in the 32-bit range. *)
Definition aggregate_invariant (s : State) : Prop :=
  (forall k, k <> 1 -> serviceAggregates s !! k = None) /\
  (forall a, serviceAggregates s !! 1 = Some a ->
             handle_ok (encryptedTotalRating a) /\
             handle_ok (encryptedResponseAvg a) /\
             handle_ok (encryptedFeedbackCount a) /\
             handle_ok (encryptedImprovementScore a)).

(** The reveal protocol: request ids are exactly [0 .. counterRequest - 1],
    every binding is to service type 1, a snapshot exists only once revealed,
    holds 32-bit values with a non-zero count, and was announced by exactly
    one event. *)
Definition reveal_invariant (s : State) : Prop :=
  0 <= counterRequest s /\
  (forall r, is_Some (requestToServiceType s !! r) <-> 0 <= r < counterRequest s) /\
  (forall r k, requestToServiceType s !! r = Some k -> k = 1) /\
  (forall k d, decryptedAggregates s !! k = Some d ->
               k = 1 /\ isRevealed d = true /\
               in_uint32 (avgRating d) /\ in_uint32 (avgResponseTime d) /\
               in_uint32 (dFeedbackCount d) /\ dFeedbackCount d <> 0 /\
               in_uint32 (improvementScore d)) /\
  (forall k, length (List.filter (isDecryptedEvent k) (events s)) =
             if isRevealed (decryptedAt s k) then 1%nat else 0%nat).

(** Sum of the ratings of the feedback records named by a batch of ids. *)
Definition sum_ratings (s : State) (fids : list Z) : Z :=
  fold_right (fun fid acc => FHE.plain (encryptedRating (feedbackAt s fid)) + acc)
    0 fids.

(** The storage a transaction can leave behind: the storage as it was (a
    revert, or a call without effect) or the closed form of one of the five
    external functions, under the conditions in which that function
    completes. *)
Inductive effect (s : State) : State -> Prop :=
| effect_none : effect s s
| effect_authorize manager : effect s (authorizedState manager s)
| effect_submit env a b c d :
    feedbackCount s < uint256_max ->
    effect s (submittedState env a b c d s)
| effect_update fid : effect s (updatedState fid s)
| effect_request k :
    FHE.isInitialized (encryptedFeedbackCount (aggregateAt s k)) = true ->
    isRevealed (decryptedAt s k) = false ->
    effect s (requestedState k s)
| effect_reveal r t a c i :
    serviceTypeOfRequest s r <> 0 ->
    isRevealed (decryptedAt s (serviceTypeOfRequest s r)) = false ->
    in_uint32 t -> in_uint32 a -> in_uint32 c -> c <> 0 -> in_uint32 i ->
    effect s (revealedState (serviceTypeOfRequest s r) t a c i s).

(** ** Execution lemmas *)

Lemma bind_ret {A B} (a : A) (k : A -> contract B) s : bind (ret a) k s = k a s.
Proof. reflexivity. Qed.

Lemma bind_gets {A B} (f : State -> A) (k : A -> contract B) s :
  bind (gets f) k s = k (f s) s.
Proof. reflexivity. Qed.

Lemma bind_modify {B} (f : State -> State) (k : unit -> contract B) s :
  bind (modify f) k s = k tt (f s).
Proof. reflexivity. Qed.

Lemma bind_require {B} (b : bool) e (k : unit -> contract B) s :
  bind (require b e) k s = if b then k tt s else Reverted e.
Proof. now destruct b. Qed.

Lemma bind_bind {A B C} (c : contract A) (k1 : A -> contract B)
    (k2 : B -> contract C) s :
  bind (bind c k1) k2 s = bind c (fun x => bind (k1 x) k2) s.
Proof. unfold bind. now destruct (c s). Qed.

Lemma bind_readAggregate {A B} k (f : ServiceAggregate -> A)
    (K : A -> contract B) s :
  bind (readAggregate k f) K s = K (f (aggregateAt s k)) s.
Proof. reflexivity. Qed.

Lemma bind_writeAggregate {B} k upd (K : unit -> contract B) s :
  bind (writeAggregate k upd) K s =
  K tt (set_serviceAggregates
          (<[k := upd (aggregateAt s k)]> (serviceAggregates s)) s).
Proof. reflexivity. Qed.

Lemma bind_readDecrypted {A B} k (f : DecryptedAggregate -> A)
    (K : A -> contract B) s :
  bind (readDecrypted k f) K s = K (f (decryptedAt s k)) s.
Proof. reflexivity. Qed.

Lemma bind_writeDecrypted {B} k upd (K : unit -> contract B) s :
  bind (writeDecrypted k upd) K s =
  K tt (set_decryptedAggregates
          (<[k := upd (decryptedAt s k)]> (decryptedAggregates s)) s).
Proof. reflexivity. Qed.

Lemma emit_eq ev s : emit ev s = Success tt (set_events (events s ++ [ev]) s).
Proof. reflexivity. Qed.

Lemma aggregateAt_set_insert k a m s :
  aggregateAt (set_serviceAggregates (<[k := a]> m) s) k = a.
Proof. unfold aggregateAt, set_serviceAggregates. cbn [serviceAggregates]. now rewrite lookup_insert_eq. Qed.

Lemma serviceAggregates_set v s :
  serviceAggregates (set_serviceAggregates v s) = v.
Proof. reflexivity. Qed.

Lemma set_serviceAggregates_twice v w s :
  set_serviceAggregates v (set_serviceAggregates w s) = set_serviceAggregates v s.
Proof. reflexivity. Qed.

Lemma decryptedAt_set_insert k a m s :
  decryptedAt (set_decryptedAggregates (<[k := a]> m) s) k = a.
Proof. unfold decryptedAt, set_decryptedAggregates. cbn [decryptedAggregates]. now rewrite lookup_insert_eq. Qed.

Lemma decryptedAggregates_set v s :
  decryptedAggregates (set_decryptedAggregates v s) = v.
Proof. reflexivity. Qed.

Lemma set_decryptedAggregates_twice v w s :
  set_decryptedAggregates v (set_decryptedAggregates w s) = set_decryptedAggregates v s.
Proof. reflexivity. Qed.

Ltac exec_step :=
  match goal with
  | |- context [aggregateAt (set_serviceAggregates (<[_ := _]> _) _) _] =>
      rewrite aggregateAt_set_insert
  | |- context [serviceAggregates (set_serviceAggregates _ _)] =>
      rewrite serviceAggregates_set
  | |- context [set_serviceAggregates _ (set_serviceAggregates _ _)] =>
      rewrite set_serviceAggregates_twice
  | |- context [decryptedAt (set_decryptedAggregates (<[_ := _]> _) _) _] =>
      rewrite decryptedAt_set_insert
  | |- context [decryptedAggregates (set_decryptedAggregates _ _)] =>
      rewrite decryptedAggregates_set
  | |- context [set_decryptedAggregates _ (set_decryptedAggregates _ _)] =>
      rewrite set_decryptedAggregates_twice
  | |- context [<[?k := _]> (<[?k := _]> _)] => rewrite insert_insert_eq
  | |- context [bind (bind _ _) _ _] => rewrite bind_bind
  | |- context [bind (ret _) _ _] => rewrite bind_ret
  | |- context [bind (readAggregate _ _) _ _] => rewrite bind_readAggregate
  | |- context [bind (writeAggregate _ _) _ _] => rewrite bind_writeAggregate
  | |- context [bind (readDecrypted _ _) _ _] => rewrite bind_readDecrypted
  | |- context [bind (writeDecrypted _ _) _ _] => rewrite bind_writeDecrypted
  | |- context [bind (gets _) _ _] => rewrite bind_gets
  | |- context [bind (modify _) _ _] => rewrite bind_modify
  | |- context [bind (require _ _) _ _] => rewrite bind_require
  | |- context [emit _ _] => rewrite emit_eq
  end;
  cbv beta.

Ltac exec := repeat exec_step.

Lemma updateServiceAggregates_eq env fid s :
  updateServiceAggregates env fid s = Success tt (updatedState fid s).
Proof.
  unfold updateServiceAggregates, updatedState, updatedAggregate, initAggregate.
  exec.
  destruct (FHE.isInitialized (encryptedFeedbackCount (aggregateAt s 1)));
    cbv [negb]; exec; reflexivity.
Qed.

Lemma requestAggregateDecryption_eq env k s :
  requestAggregateDecryption env k s =
  if negb (isManager s (msg_sender env)) then Reverted Unauthorized
  else if negb (FHE.isInitialized (encryptedFeedbackCount (aggregateAt s k)))
       then Reverted NotFound
  else if isRevealed (decryptedAt s k) then Reverted AlreadyRevealed
  else Success tt (requestedState k s).
Proof.
  unfold requestAggregateDecryption, requestedState, onlyManager. exec.
  destruct (isManager s (msg_sender env)); cbv [negb]; [|reflexivity].
  exec.
  destruct (FHE.isInitialized (encryptedFeedbackCount (aggregateAt s k)));
    [|reflexivity].
  exec. destruct (isRevealed (decryptedAt s k)); cbv [negb]; [reflexivity|].
  exec. reflexivity.
Qed.

Section Execution.

Variable checkSignatures : Z -> list byte -> list byte -> bool.

Lemma decryptAggregateData_eq env r ct pf s :
  decryptAggregateData checkSignatures env r ct pf s =
  let k := serviceTypeOfRequest s r in
  if k =? 0 then Reverted InvalidRequest
  else if isRevealed (decryptedAt s k) then Reverted AlreadyRevealed
  else if negb (checkSignatures r ct pf) then Reverted ProofInvalid
  else match abi_decode_uint32x4 ct with
       | None => Reverted AbiDecodeError
       | Some (t, a, c, i) =>
           if c =? 0 then Reverted PanicDivByZero
           else Success tt (revealedState k t a c i s)
       end.
Proof.
  unfold decryptAggregateData, revealedState. exec. cbv zeta.
  destruct (serviceTypeOfRequest s r =? 0); cbv [negb]; [reflexivity|].
  exec.
  destruct (isRevealed (decryptedAt s (serviceTypeOfRequest s r))) eqn:Hrev;
    cbv [negb]; [reflexivity|].
  exec.
  destruct (checkSignatures r ct pf); cbv [negb]; [|reflexivity].
  destruct (abi_decode_uint32x4 ct) as [[[[t a] c] i]|]; [|reflexivity].
  exec. destruct (c =? 0); cbv [negb]; [reflexivity|].
  exec. reflexivity.
Qed.

End Execution.

(** ** What a transaction can change *)

Section Frames.

Variable checkSignatures : Z -> list byte -> list byte -> bool.

Lemma authorizeManager_frame env m s :
  let s' := stateAfter (authorizeManager env m) s in
  serviceAggregates s' = serviceAggregates s /\
  decryptedAggregates s' = decryptedAggregates s /\
  requestToServiceType s' = requestToServiceType s /\
  feedbacks s' = feedbacks s.
Proof.
  unfold stateAfter, authorizeManager, onlyAdmin. exec.
  destruct (msg_sender env =? govAdmin s); exec; repeat split; reflexivity.
Qed.

Lemma submitEncryptedFeedback_frame env a b c d s :
  let s' := stateAfter (submitEncryptedFeedback env a b c d) s in
  serviceAggregates s' = serviceAggregates s /\
  decryptedAggregates s' = decryptedAggregates s /\
  requestToServiceType s' = requestToServiceType s.
Proof.
  unfold stateAfter, submitEncryptedFeedback. exec.
  destruct (feedbackCount s <? uint256_max); exec; repeat split; reflexivity.
Qed.

Lemma transact_update s env fid :
  transact checkSignatures s (env, UpdateServiceAggregates fid) = updatedState fid s.
Proof.
  unfold transact, stateAfter, dispatch, fst, snd.
  now rewrite updateServiceAggregates_eq.
Qed.

Lemma transact_request s env k :
  let s' := transact checkSignatures s (env, RequestAggregateDecryption k) in
  s' = s \/
  (FHE.isInitialized (encryptedFeedbackCount (aggregateAt s k)) = true /\
   s' = requestedState k s).
Proof.
  unfold transact, stateAfter, dispatch, fst, snd.
  rewrite requestAggregateDecryption_eq.
  destruct (isManager s (msg_sender env)); cbv [negb]; auto.
  destruct (FHE.isInitialized (encryptedFeedbackCount (aggregateAt s k)));
    auto.
  destruct (isRevealed (decryptedAt s k)); auto.
Qed.

Lemma transact_decrypt s env r ct pf :
  let s' := transact checkSignatures s (env, DecryptAggregateData r ct pf) in
  let k := serviceTypeOfRequest s r in
  s' = s \/
  (exists t a c i,
     k <> 0 /\ isRevealed (decryptedAt s k) = false /\
     s' = revealedState k t a c i s).
Proof.
  unfold transact, stateAfter, dispatch, fst, snd.
  rewrite decryptAggregateData_eq. cbv zeta.
  destruct (serviceTypeOfRequest s r =? 0) eqn:Hk; auto.
  destruct (isRevealed (decryptedAt s (serviceTypeOfRequest s r))) eqn:Hrev; auto.
  destruct (checkSignatures r ct pf); cbv [negb]; auto.
  destruct (abi_decode_uint32x4 ct) as [[[[t a] c] i]|]; auto.
  destruct (c =? 0); auto.
  right. exists t, a, c, i. repeat split; auto. now apply Z.eqb_neq.
Qed.

(** Only [updateServiceAggregates] writes the aggregates. *)
Lemma transact_serviceAggregates s tx :
  isUpdate tx = false ->
  serviceAggregates (transact checkSignatures s tx) = serviceAggregates s.
Proof.
  destruct tx as [env c]. destruct c; intros Hc; try discriminate.
  - apply authorizeManager_frame.
  - apply submitEncryptedFeedback_frame.
  - destruct (transact_request s env serviceType) as [-> | [_ ->]]; reflexivity.
  - destruct (transact_decrypt s env requestId cleartexts proof)
      as [-> | (t & a & c & i & _ & _ & ->)]; reflexivity.
Qed.

Lemma aggregateAt_updatedState fid s k :
  aggregateAt (updatedState fid s) k =
  if decide (k = 1) then updatedAggregate (feedbackAt s fid) (aggregateAt s 1)
  else aggregateAt s k.
Proof.
  unfold aggregateAt, updatedState, set_events, set_serviceAggregates.
  cbn [serviceAggregates].
  case_decide as Hk.
  - subst k. now rewrite lookup_insert_eq.
  - now rewrite lookup_insert_ne by congruence.
Qed.

Lemma updatedAggregate_initialized f a :
  FHE.isInitialized (encryptedFeedbackCount (updatedAggregate f a)) = true.
Proof. reflexivity. Qed.

(** An aggregate, once initialised, stays initialised. *)
Lemma transact_keeps_initialized s tx k :
  FHE.isInitialized (encryptedFeedbackCount (aggregateAt s k)) = true ->
  FHE.isInitialized
    (encryptedFeedbackCount (aggregateAt (transact checkSignatures s tx) k)) = true.
Proof.
  intros Hk. destruct (isUpdate tx) eqn:Hu.
  - destruct tx as [env c]; destruct c; try discriminate.
    rewrite transact_update, aggregateAt_updatedState.
    case_decide; [apply updatedAggregate_initialized | exact Hk].
  - unfold aggregateAt in *. now rewrite transact_serviceAggregates.
Qed.

Lemma decryptedAt_revealedState k t a c i s k' :
  decryptedAt (revealedState k t a c i s) k' =
  if decide (k' = k) then mkDecrypted (t / c) a c i true else decryptedAt s k'.
Proof.
  unfold decryptedAt, revealedState, set_events, set_decryptedAggregates.
  cbn [decryptedAggregates].
  case_decide as Hk.
  - subst k'. now rewrite lookup_insert_eq.
  - now rewrite lookup_insert_ne by congruence.
Qed.

Lemma serviceTypeOfRequest_requestedState k s r :
  serviceTypeOfRequest (requestedState k s) r =
  if decide (r = counterRequest s) then k else serviceTypeOfRequest s r.
Proof.
  unfold serviceTypeOfRequest, requestedState, set_requestToServiceType.
  cbn [requestToServiceType].
  case_decide as Hr.
  - subst r. now rewrite lookup_insert_eq.
  - now rewrite lookup_insert_ne by congruence.
Qed.

(** A revealed snapshot is never written again. *)
Lemma transact_keeps_snapshot s tx k :
  isRevealed (decryptedAt s k) = true ->
  decryptedAt (transact checkSignatures s tx) k = decryptedAt s k.
Proof.
  intros Hrev. destruct tx as [env c]. destruct c.
  - unfold decryptedAt, transact, dispatch, fst, snd.
    now destruct (authorizeManager_frame env manager s) as (_ & -> & _).
  - unfold decryptedAt, transact, dispatch, fst, snd.
    now destruct (submitEncryptedFeedback_frame env encServiceType encRating
                    encResponseTime encComment s) as (_ & -> & _).
  - rewrite transact_update. reflexivity.
  - destruct (transact_request s env serviceType) as [-> | [_ ->]]; reflexivity.
  - destruct (transact_decrypt s env requestId cleartexts proof)
      as [-> | (t & a & c & i & _ & Hnot & ->)]; [reflexivity|].
    rewrite decryptedAt_revealedState. case_decide as Hk; [|reflexivity].
    subst k. congruence.
Qed.

Lemma run_keeps_snapshot txs s k :
  isRevealed (decryptedAt s k) = true ->
  decryptedAt (run checkSignatures s txs) k = decryptedAt s k.
Proof.
  revert s. induction txs as [|tx txs IH]; intros s Hrev; [reflexivity|].
  change (run checkSignatures s (tx :: txs))
    with (run checkSignatures (transact checkSignatures s tx) txs).
  rewrite IH.
  - now apply transact_keeps_snapshot.
  - now rewrite transact_keeps_snapshot.
Qed.

Lemma invariant_constructor env : invariant (constructor env).
Proof.
  unfold invariant, aggregate_ok, aggregateAt, decryptedAt,
    serviceTypeOfRequest, constructor.
  cbn [serviceAggregates decryptedAggregates requestToServiceType].
  split; [|split]; intros k; rewrite lookup_empty; cbn [default].
  - reflexivity.
  - discriminate.
  - intros Hk. now contradiction Hk.
Qed.

Lemma invariant_transact s tx :
  invariant s -> invariant (transact checkSignatures s tx).
Proof.
  intros (Hagg & Hrev & Hreq).
  assert (Hinit : forall k,
    FHE.isInitialized (encryptedFeedbackCount (aggregateAt s k)) = true ->
    FHE.isInitialized (encryptedFeedbackCount
      (aggregateAt (transact checkSignatures s tx) k)) = true)
    by (intros; now apply transact_keeps_initialized).
  destruct tx as [env c]. destruct c.
  - pose proof (authorizeManager_frame env manager s) as (Ha & Hd & Hr & _).
    unfold invariant, aggregateAt, decryptedAt, serviceTypeOfRequest,
      transact, dispatch, fst, snd in *.
    rewrite Ha, Hd, Hr. auto.
  - pose proof (submitEncryptedFeedback_frame env encServiceType encRating
                  encResponseTime encComment s) as (Ha & Hd & Hr).
    unfold invariant, aggregateAt, decryptedAt, serviceTypeOfRequest,
      transact, dispatch, fst, snd in *.
    rewrite Ha, Hd, Hr. auto.
  - split; [|split].
    + intros k. rewrite transact_update, aggregateAt_updatedState.
      case_decide; [|apply Hagg]. intros Hno. discriminate.
    + intros k Hk. rewrite transact_update in Hk.
      destruct (Hrev k Hk) as [Hk0 Hki]. split; [exact Hk0|]. now apply Hinit.
    + intros r Hr. rewrite transact_update in Hr |- *.
      specialize (Hreq r Hr). specialize (Hinit _ Hreq).
      now rewrite transact_update in Hinit.
  - destruct (transact_request s env serviceType) as [E | [Hk E]];
      rewrite E in *; [repeat split; auto; apply Hrev; auto|].
    split; [|split].
    + apply Hagg.
    + apply Hrev.
    + intros r. rewrite serviceTypeOfRequest_requestedState.
      case_decide; intros Hr; [exact Hk | now apply Hreq].
  - destruct (transact_decrypt s env requestId cleartexts proof)
      as [E | (t & a & c & i & Hk0 & Hnot & E)];
      rewrite E in *; [repeat split; auto; apply Hrev; auto|].
    split; [|split].
    + apply Hagg.
    + intros k. rewrite decryptedAt_revealedState.
      case_decide as Hk; [|apply Hrev]. subst k. intros _.
      split; [exact Hk0|]. now apply Hreq.
    + apply Hreq.
Qed.

Lemma invariant_run txs s :
  invariant s -> invariant (run checkSignatures s txs).
Proof.
  revert s. induction txs as [|tx txs IH]; intros s Hs; [exact Hs|].
  change (run checkSignatures s (tx :: txs))
    with (run checkSignatures (transact checkSignatures s tx) txs).
  apply IH. now apply invariant_transact.
Qed.

Lemma reachable_invariant s : reachable checkSignatures s -> invariant s.
Proof.
  intros (env & txs & ->). apply invariant_run, invariant_constructor.
Qed.

Lemma reachable_run s txs :
  reachable checkSignatures s -> reachable checkSignatures (run checkSignatures s txs).
Proof.
  intros (env & txs0 & ->). exists env, (txs0 ++ txs).
  unfold run. now rewrite fold_left_app.
Qed.

End Frames.

(** ** Arithmetic at the 32-bit width *)

Lemma wrap32_idemp_add_l a b : wrap32 (wrap32 a + b) = wrap32 (a + b).
Proof. unfold wrap32. apply Z.add_mod_idemp_l. discriminate. Qed.

Lemma wrap32_succ_neq a : wrap32 (wrap32 a + 1) <> wrap32 a.
Proof.
  unfold wrap32, uint32_modulus. intros H.
  rewrite Z.add_mod_idemp_l in H by discriminate.
  pose proof (Z.div_mod (a + 1) (2 ^ 32) ltac:(discriminate)) as H1.
  pose proof (Z.div_mod a (2 ^ 32) ltac:(discriminate)) as H2.
  rewrite H in H1. lia.
Qed.

Lemma add_comm a b : FHE.add a b = FHE.add b a.
Proof. unfold FHE.add. now rewrite Z.add_comm. Qed.

Lemma plain_count_initAggregate a :
  FHE.plain (encryptedFeedbackCount (initAggregate a)) =
  FHE.plain (encryptedFeedbackCount a).
Proof.
  unfold initAggregate.
  destruct (encryptedFeedbackCount a) as [c|] eqn:Hc; cbn [FHE.isInitialized].
  - now rewrite Hc.
  - reflexivity.
Qed.

Lemma plain_total_initAggregate a :
  aggregate_ok a ->
  FHE.plain (encryptedTotalRating (initAggregate a)) =
  FHE.plain (encryptedTotalRating a).
Proof.
  unfold initAggregate, aggregate_ok. intros Hok.
  destruct (FHE.isInitialized (encryptedFeedbackCount a)); [reflexivity|].
  now rewrite Hok.
Qed.

Lemma stateAfter_update env fid s :
  stateAfter (updateServiceAggregates env fid) s = updatedState fid s.
Proof. unfold stateAfter. now rewrite updateServiceAggregates_eq. Qed.

Lemma aggregateAt_1_updatedState fid s :
  aggregateAt (updatedState fid s) 1 =
  updatedAggregate (feedbackAt s fid) (aggregateAt s 1).
Proof. rewrite aggregateAt_updatedState. now case_decide. Qed.

Lemma feedbackAt_updatedState fid s k :
  feedbackAt (updatedState fid s) k = feedbackAt s k.
Proof. reflexivity. Qed.

Lemma count_updates_cons tx txs :
  count_updates (tx :: txs) =
  (if isUpdate tx then 1 else 0) + count_updates txs.
Proof.
  unfold count_updates. rewrite filter_cons.
  destruct (isUpdate tx); case_decide; try congruence; simpl length; lia.
Qed.

Lemma count_after_run checkSignatures txs s n :
  FHE.plain (encryptedFeedbackCount (aggregateAt s 1)) = wrap32 n ->
  FHE.plain (encryptedFeedbackCount (aggregateAt (run checkSignatures s txs) 1)) =
  wrap32 (n + count_updates txs).
Proof.
  revert s n. induction txs as [|tx txs IH]; intros s n Hn.
  - unfold run, count_updates; cbn [fold_left]. now rewrite Z.add_0_r.
  - change (run checkSignatures s (tx :: txs))
      with (run checkSignatures (transact checkSignatures s tx) txs).
    rewrite count_updates_cons. destruct (isUpdate tx) eqn:Hu.
    + rewrite (IH _ (n + 1)); [f_equal; lia|].
      destruct tx as [env c]; destruct c; try discriminate.
      rewrite transact_update, aggregateAt_1_updatedState.
      unfold updatedAggregate; cbn [encryptedFeedbackCount].
      unfold FHE.add at 1. cbn [FHE.plain default].
      rewrite plain_count_initAggregate, Hn.
      change (default 0 (FHE.asEuint32 1)) with 1.
      apply wrap32_idemp_add_l.
    + rewrite (IH _ n); [f_equal; lia|].
      unfold aggregateAt. now rewrite transact_serviceAggregates.
Qed.

(** ** The aggregate update *)

(** C1 (code defect).  For every call of [updateServiceAggregates], the
    total rating, the count and the improvement score of the aggregate are
    those of the specification's incremental formulas, after
    zero-initialisation of an uninitialised aggregate.  The response average
    is not: the code multiplies the old average by the count it has just
    incremented, [(responseAvg * count' + responseTime) / count'].  After one
    feedback (rating 5, response time 10), a second one with response time 30
    gives 25 where the specification's formula gives 20. *)
Theorem updateServiceAggregates_against_spec_formulas :
  (forall env fid s,
     let f := feedbackAt s fid in
     let a := aggregateAt s 1 in
     let a' := aggregateAt (stateAfter (updateServiceAggregates env fid) s) 1 in
     let sp := spec_updatedAggregate (encryptedRating f)
                 (encryptedResponseTime f) a in
     encryptedTotalRating a' = encryptedTotalRating sp /\
     encryptedFeedbackCount a' = encryptedFeedbackCount sp /\
     encryptedImprovementScore a' = encryptedImprovementScore sp /\
     encryptedResponseAvg a' =
       FHE.div
         (FHE.add
            (FHE.mul (encryptedResponseAvg (initAggregate a))
               (encryptedFeedbackCount sp))
            (encryptedResponseTime f))
         (encryptedFeedbackCount sp)) /\
  (let s := stateOf txsUpdated1 in
   let f := feedbackAt s 2 in
   let a' := aggregateAt (stateAfter (updateServiceAggregates citizenEnv 2) s) 1 in
   let sp := spec_updatedAggregate (encryptedRating f)
               (encryptedResponseTime f) (aggregateAt s 1) in
   (encryptedRating f, encryptedResponseTime f) = (Some 3, Some 30) /\
   (encryptedResponseAvg (aggregateAt s 1),
    encryptedFeedbackCount (aggregateAt s 1)) = (Some 10, Some 1) /\
   encryptedResponseAvg sp = Some 20 /\
   encryptedResponseAvg a' = Some 25).
Proof.
  split.
  - intros env fid s. cbv zeta.
    rewrite stateAfter_update, aggregateAt_1_updatedState.
    unfold updatedAggregate, spec_updatedAggregate, calculateImprovementScore.
    cbn [encryptedTotalRating encryptedFeedbackCount encryptedImprovementScore
         encryptedResponseAvg].
    repeat split. f_equal. apply add_comm.
  - vm_compute. repeat split.
Qed.

(** C6 (code defect).  From a fresh deployment the count of the aggregate
    equals the number of updates executed, at the 32-bit width, whatever
    other transactions are interleaved.  The response average is not the
    running mean: on the specification's own scenario (response times 10,
    30, 20) the stored average after each update is 10, 25, 31 while the
    running means are 10, 20, 20. *)
Theorem responseAvg_against_running_mean :
  (forall checkSignatures deployer txs,
     FHE.plain (encryptedFeedbackCount
                  (aggregateAt (run checkSignatures (constructor deployer) txs) 1)) =
     wrap32 (count_updates txs)) /\
  map (fun txs => encryptedFeedbackCount (aggregateAt (stateOf txs) 1))
      [txsUpdated1; txsUpdated2; txsUpdated3] = [Some 1; Some 2; Some 3] /\
  map (fun txs => encryptedResponseAvg (aggregateAt (stateOf txs) 1))
      [txsUpdated1; txsUpdated2; txsUpdated3] = [Some 10; Some 25; Some 31] /\
  map running_mean [[10]; [10; 30]; [10; 30; 20]] = [10; 20; 20].
Proof.
  split; [|vm_compute; repeat split].
  intros checkSignatures deployer txs.
  apply (count_after_run checkSignatures txs (constructor deployer) 0).
  reflexivity.
Qed.

(** C7.  [updateServiceAggregates] is not idempotent.  From any reachable
    storage, two calls with the same feedback id raise the count by 2 and the
    total rating by twice the rating of that feedback (in 32-bit arithmetic),
    and the second call changes the count again. *)
Theorem updateServiceAggregates_twice_double_counts
    checkSignatures env1 env2 fid s :
  reachable checkSignatures s ->
  let s1 := stateAfter (updateServiceAggregates env1 fid) s in
  let s2 := stateAfter (updateServiceAggregates env2 fid) s1 in
  let rating := FHE.plain (encryptedRating (feedbackAt s fid)) in
  FHE.plain (encryptedFeedbackCount (aggregateAt s2 1)) =
    wrap32 (FHE.plain (encryptedFeedbackCount (aggregateAt s 1)) + 2) /\
  FHE.plain (encryptedTotalRating (aggregateAt s2 1)) =
    wrap32 (FHE.plain (encryptedTotalRating (aggregateAt s 1)) + 2 * rating) /\
  FHE.plain (encryptedFeedbackCount (aggregateAt s2 1)) <>
    FHE.plain (encryptedFeedbackCount (aggregateAt s1 1)).
Proof.
  intros Hreach. apply reachable_invariant in Hreach as (Hagg & _).
  cbv zeta. rewrite !stateAfter_update, !aggregateAt_1_updatedState.
  rewrite feedbackAt_updatedState.
  set (f := feedbackAt s fid). set (a := aggregateAt s 1).
  assert (Hc1 : FHE.plain (encryptedFeedbackCount (updatedAggregate f a)) =
                wrap32 (FHE.plain (encryptedFeedbackCount a) + 1)).
  { unfold updatedAggregate; cbn [encryptedFeedbackCount].
    unfold FHE.add; cbn [FHE.plain default].
    change (default 0 (encryptedFeedbackCount (initAggregate a)))
      with (FHE.plain (encryptedFeedbackCount (initAggregate a))).
    now rewrite plain_count_initAggregate. }
  assert (Ht1 : FHE.plain (encryptedTotalRating (updatedAggregate f a)) =
                wrap32 (FHE.plain (encryptedTotalRating a) +
                        FHE.plain (encryptedRating f))).
  { unfold updatedAggregate; cbn [encryptedTotalRating].
    unfold FHE.add; cbn [FHE.plain default].
    change (default 0 (encryptedTotalRating (initAggregate a)))
      with (FHE.plain (encryptedTotalRating (initAggregate a))).
    rewrite plain_total_initAggregate by apply Hagg. reflexivity. }
  assert (Hinit : initAggregate (updatedAggregate f a) = updatedAggregate f a)
    by reflexivity.
  assert (Hc2 : FHE.plain (encryptedFeedbackCount
                  (updatedAggregate f (updatedAggregate f a))) =
                wrap32 (FHE.plain (encryptedFeedbackCount (updatedAggregate f a)) + 1)).
  { unfold updatedAggregate at 1; cbn [encryptedFeedbackCount].
    rewrite Hinit. reflexivity. }
  assert (Ht2 : FHE.plain (encryptedTotalRating
                  (updatedAggregate f (updatedAggregate f a))) =
                wrap32 (FHE.plain (encryptedTotalRating (updatedAggregate f a)) +
                        FHE.plain (encryptedRating f))).
  { unfold updatedAggregate at 1; cbn [encryptedTotalRating].
    rewrite Hinit. reflexivity. }
  split; [|split].
  - rewrite Hc2, Hc1, wrap32_idemp_add_l. f_equal. lia.
  - rewrite Ht2, Ht1, wrap32_idemp_add_l. f_equal. lia.
  - rewrite Hc2, Hc1. apply wrap32_succ_neq.
Qed.

Lemma updateServiceAggregates_twice_double_counts_witness :
  let s := stateOf txsUpdated1 in
  let s1 := stateAfter (updateServiceAggregates citizenEnv 1) s in
  let s2 := stateAfter (updateServiceAggregates managerEnv 1) s1 in
  let rating := FHE.plain (encryptedRating (feedbackAt s 1)) in
  FHE.plain (encryptedFeedbackCount (aggregateAt s2 1)) =
    wrap32 (FHE.plain (encryptedFeedbackCount (aggregateAt s 1)) + 2) /\
  FHE.plain (encryptedTotalRating (aggregateAt s2 1)) =
    wrap32 (FHE.plain (encryptedTotalRating (aggregateAt s 1)) + 2 * rating) /\
  FHE.plain (encryptedFeedbackCount (aggregateAt s2 1)) <>
    FHE.plain (encryptedFeedbackCount (aggregateAt s1 1)).
Proof.
  apply (updateServiceAggregates_twice_double_counts acceptNonEmpty citizenEnv
           managerEnv 1 (stateOf txsUpdated1)).
  exists adminEnv, txsUpdated1. reflexivity.
Defined.

(** C8.  [updateServiceAggregates] writes the aggregate stored under the
    constant key 1 and nothing else: the aggregate of every other service
    type, and every other storage variable, is as before; the event logged is
    [AggregationUpdated 1]; and the outcome does not depend on the encrypted
    service type recorded in the feedback. *)
Theorem updateServiceAggregates_only_service_type_1 env fid s :
  let s' := stateAfter (updateServiceAggregates env fid) s in
  (forall k, k <> 1 -> serviceAggregates s' !! k = serviceAggregates s !! k) /\
  events s' = events s ++ [AggregationUpdated 1] /\
  (feedbackCount s', feedbacks s', decryptedAggregates s', citizenFeedbacks s',
   authorizedManagers s', requestToFeedbackId s', requestToServiceType s',
   govAdmin s', counterRequest s', oracleRequests s') =
  (feedbackCount s, feedbacks s, decryptedAggregates s, citizenFeedbacks s,
   authorizedManagers s, requestToFeedbackId s, requestToServiceType s,
   govAdmin s, counterRequest s, oracleRequests s) /\
  (forall serviceType,
     let s_alt :=
       set_feedbacks
         (<[fid := with_encryptedServiceType serviceType (feedbackAt s fid)]>
            (feedbacks s)) s in
     let s_alt' := stateAfter (updateServiceAggregates env fid) s_alt in
     serviceAggregates s_alt' = serviceAggregates s' /\
     events s_alt' = events s').
Proof.
  cbv zeta. rewrite stateAfter_update. split; [|split; [|split]].
  - intros k Hk. unfold updatedState, set_events, set_serviceAggregates.
    cbn [serviceAggregates]. now rewrite lookup_insert_ne by congruence.
  - reflexivity.
  - reflexivity.
  - intros serviceType. rewrite stateAfter_update.
    unfold updatedState, set_events, set_serviceAggregates, set_feedbacks,
      feedbackAt, aggregateAt.
    cbn [serviceAggregates events feedbacks].
    rewrite lookup_insert_eq. split; reflexivity.
Qed.

Lemma updateServiceAggregates_only_service_type_1_witness :
  let s := stateOf txsUpdated1 in
  let s' := stateAfter (updateServiceAggregates citizenEnv 2) s in
  serviceAggregates s' !! 2 = serviceAggregates s !! 2 /\
  events s' = events s ++ [AggregationUpdated 1].
Proof.
  pose proof (updateServiceAggregates_only_service_type_1 citizenEnv 2
                (stateOf txsUpdated1)) as (Hother & Hev & _).
  split; [apply Hother; lia | exact Hev].
Defined.

(** ** The reveal protocol *)

(** C9.  [decryptAggregateData] with a request id that is bound to no
    service type (the mapping reads 0 for it, as it does for every id that
    was never minted) reverts with "Invalid request" and leaves the whole
    storage, hence every decrypted aggregate, as it was. *)
Theorem decryptAggregateData_unbound_request
    checkSignatures env requestId cleartexts proof s :
  serviceTypeOfRequest s requestId = 0 ->
  decryptAggregateData checkSignatures env requestId cleartexts proof s =
    Reverted InvalidRequest /\
  stateAfter (decryptAggregateData checkSignatures env requestId cleartexts proof) s = s.
Proof.
  intros Hk. unfold stateAfter. rewrite decryptAggregateData_eq. cbv zeta.
  rewrite Hk. split; reflexivity.
Qed.

Lemma decryptAggregateData_unbound_request_witness :
  serviceTypeOfRequest (stateOf txsRequested) 7 = 0 /\
  decryptAggregateData acceptNonEmpty outsiderEnv 7 bundle goodProof
    (stateOf txsRequested) = Reverted InvalidRequest /\
  stateAfter (decryptAggregateData acceptNonEmpty outsiderEnv 7 bundle goodProof)
    (stateOf txsRequested) = stateOf txsRequested.
Proof.
  split; [vm_compute; reflexivity|].
  apply (decryptAggregateData_unbound_request acceptNonEmpty outsiderEnv 7
           bundle goodProof (stateOf txsRequested)).
  vm_compute; reflexivity.
Defined.

(** C10.  [decryptAggregateData] carries no caller authorisation: two
    callers with the same arguments in the same storage get the same outcome
    and leave the same storage, and any caller completes the reveal of a
    pending request when the proof verifies and the bundle decodes with a
    non-zero count. *)
Theorem decryptAggregateData_caller_independent
    checkSignatures env1 env2 requestId cleartexts proof s :
  decryptAggregateData checkSignatures env1 requestId cleartexts proof s =
  decryptAggregateData checkSignatures env2 requestId cleartexts proof s /\
  stateAfter (decryptAggregateData checkSignatures env1 requestId cleartexts proof) s =
  stateAfter (decryptAggregateData checkSignatures env2 requestId cleartexts proof) s /\
  (forall t a c i,
     serviceTypeOfRequest s requestId <> 0 ->
     isRevealed (decryptedAt s (serviceTypeOfRequest s requestId)) = false ->
     checkSignatures requestId cleartexts proof = true ->
     abi_decode_uint32x4 cleartexts = Some (t, a, c, i) ->
     c <> 0 ->
     decryptAggregateData checkSignatures env1 requestId cleartexts proof s =
     Success tt (revealedState (serviceTypeOfRequest s requestId) t a c i s)).
Proof.
  split; [reflexivity|]. split; [reflexivity|].
  intros t a c i Hk Hrev Hsig Hdec Hc.
  rewrite decryptAggregateData_eq. cbv zeta.
  apply Z.eqb_neq in Hk, Hc. now rewrite Hk, Hrev, Hsig, Hdec, Hc.
Qed.

Lemma decryptAggregateData_caller_independent_witness :
  decryptAggregateData acceptNonEmpty outsiderEnv 0 bundle goodProof
    (stateOf txsRequested) =
  decryptAggregateData acceptNonEmpty managerEnv 0 bundle goodProof
    (stateOf txsRequested) /\
  decryptAggregateData acceptNonEmpty outsiderEnv 0 bundle goodProof
    (stateOf txsRequested) =
  Success tt (revealedState 1 12 31 3 76 (stateOf txsRequested)).
Proof.
  pose proof (decryptAggregateData_caller_independent acceptNonEmpty
                outsiderEnv managerEnv 0 bundle goodProof
                (stateOf txsRequested)) as (Hsame & _ & Hany).
  split; [exact Hsame|].
  apply (Hany 12 31 3 76); vm_compute; congruence.
Defined.

(** C5.  A successful [decryptAggregateData] stores, for the service type
    of the request, the snapshot whose [avgRating] is the integer quotient of
    the revealed total rating by the revealed count, whose other three fields
    are the revealed average response time, count and improvement score, and
    whose [isRevealed] flag is set.  Revealed plaintexts with total 12,
    average 20 and count 3 give [avgRating = 4]. *)
Theorem decryptAggregateData_stores_snapshot
    checkSignatures env requestId cleartexts proof s s' :
  decryptAggregateData checkSignatures env requestId cleartexts proof s =
    Success tt s' ->
  exists totalRating avgResponse count improvement,
    abi_decode_uint32x4 cleartexts =
      Some (totalRating, avgResponse, count, improvement) /\
    count <> 0 /\
    decryptedAt s' (serviceTypeOfRequest s requestId) =
      mkDecrypted (totalRating / count) avgResponse count improvement true /\
    ((totalRating, avgResponse, count) = (12, 20, 3) ->
     decryptedAt s' (serviceTypeOfRequest s requestId) =
       mkDecrypted 4 20 3 improvement true).
Proof.
  rewrite decryptAggregateData_eq. cbv zeta.
  destruct (serviceTypeOfRequest s requestId =? 0); [discriminate|].
  destruct (isRevealed (decryptedAt s (serviceTypeOfRequest s requestId)));
    [discriminate|].
  destruct (negb (checkSignatures requestId cleartexts proof)); [discriminate|].
  destruct (abi_decode_uint32x4 cleartexts) as [[[[t a] c] i]|]; [|discriminate].
  destruct (c =? 0) eqn:Hc; [discriminate|].
  intros [= <-]. exists t, a, c, i.
  assert (Hsnap : decryptedAt
            (revealedState (serviceTypeOfRequest s requestId) t a c i s)
            (serviceTypeOfRequest s requestId) = mkDecrypted (t / c) a c i true).
  { rewrite decryptedAt_revealedState. now case_decide. }
  repeat split.
  - now apply Z.eqb_neq.
  - exact Hsnap.
  - intros [= -> -> ->]. exact Hsnap.
Qed.

Lemma decryptAggregateData_stores_snapshot_witness :
  let ct := abi_encode_uint32x4 12 20 3 76 in
  let s' := stateAfter (decryptAggregateData acceptNonEmpty outsiderEnv 0 ct goodProof)
              (stateOf txsRequested) in
  exists totalRating avgResponse count improvement,
    abi_decode_uint32x4 ct = Some (totalRating, avgResponse, count, improvement) /\
    count <> 0 /\
    decryptedAt s' (serviceTypeOfRequest (stateOf txsRequested) 0) =
      mkDecrypted (totalRating / count) avgResponse count improvement true /\
    ((totalRating, avgResponse, count) = (12, 20, 3) ->
     decryptedAt s' (serviceTypeOfRequest (stateOf txsRequested) 0) =
       mkDecrypted 4 20 3 improvement true).
Proof.
  cbv zeta.
  apply (decryptAggregateData_stores_snapshot acceptNonEmpty outsiderEnv 0
           (abi_encode_uint32x4 12 20 3 76) goodProof (stateOf txsRequested)).
  vm_compute. reflexivity.
Defined.

(** C3.  [requestAggregateDecryption] succeeds exactly when the caller is
    an authorised manager, the aggregate of the service type is initialised
    and its snapshot is not revealed.  A caller who is not a manager gets
    "Not authorized" and the storage is unchanged; a manager gets "No data"
    for an absent aggregate and "Already decrypted" for a revealed snapshot.
    On success the request id minted by the oracle is bound to the service
    type, and no aggregate, snapshot or other binding changes. *)
Theorem requestAggregateDecryption_contract env serviceType s :
  let caller := msg_sender env in
  let initialized :=
    FHE.isInitialized (encryptedFeedbackCount (aggregateAt s serviceType)) in
  let revealed := isRevealed (decryptedAt s serviceType) in
  let outcome := requestAggregateDecryption env serviceType s in
  ((exists s', outcome = Success tt s') <->
   isManager s caller = true /\ initialized = true /\ revealed = false) /\
  (isManager s caller = false ->
   outcome = Reverted Unauthorized /\
   stateAfter (requestAggregateDecryption env serviceType) s = s) /\
  (isManager s caller = true -> initialized = false ->
   outcome = Reverted NotFound) /\
  (isManager s caller = true -> initialized = true -> revealed = true ->
   outcome = Reverted AlreadyRevealed) /\
  (forall s', outcome = Success tt s' ->
     let reqId := counterRequest s in
     serviceTypeOfRequest s' reqId = serviceType /\
     counterRequest s' = reqId + 1 /\
     (forall r, r <> reqId -> serviceTypeOfRequest s' r = serviceTypeOfRequest s r) /\
     serviceAggregates s' = serviceAggregates s /\
     decryptedAggregates s' = decryptedAggregates s).
Proof.
  cbv zeta. unfold stateAfter. rewrite requestAggregateDecryption_eq.
  destruct (isManager s (msg_sender env));
    destruct (FHE.isInitialized (encryptedFeedbackCount (aggregateAt s serviceType)));
    destruct (isRevealed (decryptedAt s serviceType)); cbv [negb];
    try (repeat first
           [ split | progress intros | discriminate | reflexivity
           | match goal with
             | H : exists _, _ |- _ => destruct H
             | H : _ /\ _ |- _ => destruct H
             end ]; fail).
  split; [split; [intros _; repeat split | intros _; eexists; reflexivity]|].
  split; [discriminate|]. split; [discriminate|]. split; [discriminate|].
  intros s' [= <-]. cbv zeta. repeat split.
  - rewrite serviceTypeOfRequest_requestedState. now case_decide.
  - intros r Hr. rewrite serviceTypeOfRequest_requestedState. now case_decide.
Qed.

Lemma requestAggregateDecryption_contract_witness :
  let s := stateOf txsUpdated3 in
  (requestAggregateDecryption outsiderEnv 1 s = Reverted Unauthorized /\
   stateAfter (requestAggregateDecryption outsiderEnv 1) s = s) /\
  requestAggregateDecryption managerEnv 2 s = Reverted NotFound /\
  serviceTypeOfRequest (stateAfter (requestAggregateDecryption managerEnv 1) s)
    (counterRequest s) = 1.
Proof.
  cbv zeta. split; [|split].
  - apply (requestAggregateDecryption_contract outsiderEnv 1 (stateOf txsUpdated3)).
    vm_compute; reflexivity.
  - apply (requestAggregateDecryption_contract managerEnv 2 (stateOf txsUpdated3));
      vm_compute; reflexivity.
  - apply (requestAggregateDecryption_contract managerEnv 1 (stateOf txsUpdated3)).
    vm_compute; reflexivity.
Defined.

(** C4, counterexample.  A request id bound to a service type whose
    snapshot is already revealed: with a proof that fails verification the
    call reverts with "Already decrypted", not with the proof error, because
    the revealed flag is tested before the signatures. *)
Lemma decryptAggregateData_invalid_proof_counterexample :
  let s := stateOf txsRevealed in
  reachable acceptNonEmpty s /\
  serviceTypeOfRequest s 1 = 1 /\
  acceptNonEmpty 1 bundle badProof = false /\
  decryptAggregateData acceptNonEmpty outsiderEnv 1 bundle badProof s =
    Reverted AlreadyRevealed /\
  decryptAggregateData acceptNonEmpty outsiderEnv 1 bundle badProof s <>
    Reverted ProofInvalid.
Proof.
  cbv zeta. split; [exists adminEnv, txsRevealed; reflexivity|].
  assert (H : decryptAggregateData acceptNonEmpty outsiderEnv 1 bundle badProof
                (stateOf txsRevealed) = Reverted AlreadyRevealed)
    by (vm_compute; reflexivity).
  repeat split; try (vm_compute; reflexivity); try exact H.
  rewrite H. discriminate.
Qed.

(** C4, amended.  For a request id bound to a service type whose snapshot
    is not yet revealed, a call whose proof fails verification reverts with
    the proof error and leaves the storage unchanged: the snapshot stays
    unrevealed and the binding is kept.  A later call for the same request
    id, by any caller, with a proof that verifies over a bundle that decodes
    with a non-zero count, succeeds and reveals the snapshot. *)
Theorem decryptAggregateData_invalid_proof_retry
    checkSignatures env requestId cleartexts proof s :
  serviceTypeOfRequest s requestId <> 0 ->
  isRevealed (decryptedAt s (serviceTypeOfRequest s requestId)) = false ->
  checkSignatures requestId cleartexts proof = false ->
  let s1 := stateAfter
              (decryptAggregateData checkSignatures env requestId cleartexts proof) s in
  decryptAggregateData checkSignatures env requestId cleartexts proof s =
    Reverted ProofInvalid /\
  s1 = s /\
  isRevealed (decryptedAt s1 (serviceTypeOfRequest s requestId)) = false /\
  serviceTypeOfRequest s1 requestId = serviceTypeOfRequest s requestId /\
  (forall env' cleartexts' proof' t a c i,
     checkSignatures requestId cleartexts' proof' = true ->
     abi_decode_uint32x4 cleartexts' = Some (t, a, c, i) ->
     c <> 0 ->
     exists s2,
       decryptAggregateData checkSignatures env' requestId cleartexts' proof' s1 =
         Success tt s2 /\
       decryptedAt s2 (serviceTypeOfRequest s requestId) =
         mkDecrypted (t / c) a c i true).
Proof.
  intros Hk Hrev Hsig. cbv zeta.
  assert (Hout : decryptAggregateData checkSignatures env requestId cleartexts proof s =
                 Reverted ProofInvalid).
  { rewrite decryptAggregateData_eq. cbv zeta.
    apply Z.eqb_neq in Hk. now rewrite Hk, Hrev, Hsig. }
  unfold stateAfter. rewrite Hout.
  repeat split; try assumption.
  intros env' ct' pf' t a c i Hsig' Hdec Hc.
  eexists. split.
  - rewrite decryptAggregateData_eq. cbv zeta.
    apply Z.eqb_neq in Hk, Hc. rewrite Hk, Hrev, Hsig', Hdec, Hc. reflexivity.
  - rewrite decryptedAt_revealedState. now case_decide.
Qed.

Lemma decryptAggregateData_invalid_proof_retry_witness :
  let s := stateOf txsRequested in
  let s1 := stateAfter
              (decryptAggregateData acceptNonEmpty outsiderEnv 0 bundle badProof) s in
  decryptAggregateData acceptNonEmpty outsiderEnv 0 bundle badProof s =
    Reverted ProofInvalid /\
  s1 = s /\
  exists s2,
    decryptAggregateData acceptNonEmpty managerEnv 0 bundle goodProof s1 =
      Success tt s2 /\
    decryptedAt s2 (serviceTypeOfRequest s 0) = mkDecrypted (12 / 3) 31 3 76 true.
Proof.
  cbv zeta.
  destruct (decryptAggregateData_invalid_proof_retry acceptNonEmpty outsiderEnv 0
              bundle badProof (stateOf txsRequested))
    as (Hout & Hsame & _ & _ & Hretry);
    [vm_compute; congruence | vm_compute; reflexivity | reflexivity |].
  split; [exact Hout|]. split; [exact Hsame|].
  apply (Hretry managerEnv bundle goodProof 12 31 3 76);
    [reflexivity | vm_compute; reflexivity | lia].
Defined.

(** C2, counterexample.  The snapshot of service type 1 is revealed, and a
    further [requestAggregateDecryption] for it by a caller who is not a
    manager reverts with "Not authorized", not with "Already decrypted". *)
Lemma revealed_snapshot_request_counterexample :
  let s := stateOf txsRevealed in
  reachable acceptNonEmpty s /\
  isRevealed (decryptedAt s 1) = true /\
  requestAggregateDecryption outsiderEnv 1 s = Reverted Unauthorized /\
  requestAggregateDecryption outsiderEnv 1 s <> Reverted AlreadyRevealed.
Proof.
  cbv zeta. split; [exists adminEnv, txsRevealed; reflexivity|].
  assert (H : requestAggregateDecryption outsiderEnv 1 (stateOf txsRevealed) =
              Reverted Unauthorized) by (vm_compute; reflexivity).
  repeat split; try (vm_compute; reflexivity); try exact H.
  rewrite H. discriminate.
Qed.

(** C2, amended.  Write-once: once the snapshot of a service type is
    revealed in a reachable storage, no sequence of transactions changes it;
    in every later storage a [decryptAggregateData] whose request id is bound
    to that service type reverts with "Already decrypted", whatever the
    proof, and a [requestAggregateDecryption] for that service type reverts,
    with "Already decrypted" for a manager and with "Not authorized" for any
    other caller. *)
Theorem revealed_snapshot_write_once checkSignatures s serviceType txs :
  reachable checkSignatures s ->
  isRevealed (decryptedAt s serviceType) = true ->
  let s' := run checkSignatures s txs in
  decryptedAt s' serviceType = decryptedAt s serviceType /\
  (forall env requestId cleartexts proof,
     serviceTypeOfRequest s' requestId = serviceType ->
     decryptAggregateData checkSignatures env requestId cleartexts proof s' =
       Reverted AlreadyRevealed) /\
  (forall env,
     requestAggregateDecryption env serviceType s' =
       Reverted (if isManager s' (msg_sender env)
                 then AlreadyRevealed else Unauthorized)).
Proof.
  intros Hreach Hrev. cbv zeta.
  assert (Hsnap : decryptedAt (run checkSignatures s txs) serviceType =
                  decryptedAt s serviceType) by now apply run_keeps_snapshot.
  assert (Hrev' : isRevealed (decryptedAt (run checkSignatures s txs) serviceType) = true)
    by now rewrite Hsnap.
  destruct (reachable_invariant checkSignatures _
              (reachable_run checkSignatures s txs Hreach)) as (_ & Hinv & _).
  destruct (Hinv serviceType Hrev') as [Hk0 Hinit].
  split; [exact Hsnap|]. split.
  - intros env r ct pf Hr. rewrite decryptAggregateData_eq. cbv zeta.
    rewrite Hr. apply Z.eqb_neq in Hk0. now rewrite Hk0, Hrev'.
  - intros env. rewrite requestAggregateDecryption_eq.
    destruct (isManager (run checkSignatures s txs) (msg_sender env));
      cbv [negb]; [|reflexivity].
    now rewrite Hinit, Hrev'.
Qed.

Lemma revealed_snapshot_write_once_witness :
  let s := stateOf txsRevealed in
  let s' := run acceptNonEmpty s txsLater in
  decryptedAt s' 1 = decryptedAt s 1 /\
  decryptAggregateData acceptNonEmpty outsiderEnv 0 bundle goodProof s' =
    Reverted AlreadyRevealed /\
  requestAggregateDecryption managerEnv 1 s' = Reverted AlreadyRevealed.
Proof.
  cbv zeta.
  destruct (revealed_snapshot_write_once acceptNonEmpty (stateOf txsRevealed) 1
              txsLater) as (Hsnap & Hcomplete & Hrequest).
  - exists adminEnv, txsRevealed; reflexivity.
  - vm_compute; reflexivity.
  - split; [exact Hsnap|]. split.
    + apply Hcomplete. vm_compute; reflexivity.
    + rewrite Hrequest. vm_compute; reflexivity.
Defined.

(** ** Closed forms of the remaining transactions *)

Lemma authorizeManager_eq env manager s :
  authorizeManager env manager s =
  if msg_sender env =? govAdmin s then Success tt (authorizedState manager s)
  else Reverted NotAdmin.
Proof.
  unfold authorizeManager, onlyAdmin, authorizedState. exec.
  destruct (msg_sender env =? govAdmin s); exec; reflexivity.
Qed.

Lemma submitEncryptedFeedback_eq env a b c d s :
  submitEncryptedFeedback env a b c d s =
  if feedbackCount s <? uint256_max
  then Success tt (submittedState env a b c d s)
  else Reverted PanicOverflow.
Proof.
  unfold submitEncryptedFeedback, submittedState. exec.
  destruct (feedbackCount s <? uint256_max); exec; reflexivity.
Qed.

Lemma be_to_Z_aux_nonneg bs acc :
  0 <= acc ->
  0 <= fold_left (fun acc b => acc * 256 + Z.of_N (Byte.to_N b)) bs acc.
Proof.
  revert acc. induction bs as [|b bs IH]; intros acc Hacc; [exact Hacc|].
  cbn [fold_left]. apply IH. lia.
Qed.

Lemma abi_word_nonneg bs i : 0 <= abi_word bs i.
Proof. unfold abi_word, be_to_Z. apply be_to_Z_aux_nonneg. lia. Qed.

Lemma abi_decode_in_range bs t a c i :
  abi_decode_uint32x4 bs = Some (t, a, c, i) ->
  in_uint32 t /\ in_uint32 a /\ in_uint32 c /\ in_uint32 i.
Proof.
  unfold abi_decode_uint32x4.
  destruct (length bs <? 128)%nat; [discriminate|].
  cbv zeta. cbn [forallb].
  destruct (abi_word bs 0 <? uint32_modulus) eqn:H0; [|discriminate].
  destruct (abi_word bs 1 <? uint32_modulus) eqn:H1; [|discriminate].
  destruct (abi_word bs 2 <? uint32_modulus) eqn:H2; [|discriminate].
  destruct (abi_word bs 3 <? uint32_modulus) eqn:H3; [|discriminate].
  cbn [andb]. intros [= <- <- <- <-].
  apply Z.ltb_lt in H0, H1, H2, H3.
  unfold in_uint32. pose proof (abi_word_nonneg bs 0).
  pose proof (abi_word_nonneg bs 1). pose proof (abi_word_nonneg bs 2).
  pose proof (abi_word_nonneg bs 3). repeat split; assumption.
Qed.

Section Effects.

Variable checkSignatures : Z -> list byte -> list byte -> bool.

Lemma transact_effect s tx : effect s (transact checkSignatures s tx).
Proof.
  destruct tx as [env c]. unfold transact, stateAfter, dispatch, fst, snd.
  destruct c.
  - rewrite authorizeManager_eq.
    destruct (msg_sender env =? govAdmin s); constructor.
  - rewrite submitEncryptedFeedback_eq.
    destruct (feedbackCount s <? uint256_max) eqn:H; constructor.
    now apply Z.ltb_lt.
  - rewrite updateServiceAggregates_eq. constructor.
  - rewrite requestAggregateDecryption_eq.
    destruct (isManager s (msg_sender env)); cbv [negb]; [|constructor].
    destruct (FHE.isInitialized (encryptedFeedbackCount (aggregateAt s serviceType)))
      eqn:Hi; [|constructor].
    destruct (isRevealed (decryptedAt s serviceType)) eqn:Hr; constructor; assumption.
  - rewrite decryptAggregateData_eq. cbv zeta.
    destruct (serviceTypeOfRequest s requestId =? 0) eqn:Hk; [constructor|].
    destruct (isRevealed (decryptedAt s (serviceTypeOfRequest s requestId))) eqn:Hr;
      [constructor|].
    destruct (negb (checkSignatures requestId cleartexts proof)); [constructor|].
    destruct (abi_decode_uint32x4 cleartexts) as [[[[t a] c] i]|] eqn:Hd;
      [|constructor].
    destruct (c =? 0) eqn:Hc; [constructor|].
    apply abi_decode_in_range in Hd as (? & ? & ? & ?).
    apply Z.eqb_neq in Hk, Hc. now constructor.
Qed.

(** An invariant of every effect is an invariant of every reachable storage. *)
Lemma effect_invariant_reachable (P : State -> Prop) :
  (forall env, P (constructor env)) ->
  (forall s s', P s -> effect s s' -> P s') ->
  forall s, reachable checkSignatures s -> P s.
Proof.
  intros Hinit Hstep s (env & txs & ->).
  generalize (Hinit env). generalize (constructor env) as s0.
  induction txs as [|tx txs IH]; intros s0 Hs0; [exact Hs0|].
  change (run checkSignatures s0 (tx :: txs))
    with (run checkSignatures (transact checkSignatures s0 tx) txs).
  apply IH. eapply Hstep; [exact Hs0|apply transact_effect].
Qed.

End Effects.

(** ** The feedback ledger *)

Lemma ledger_invariant_frame s s' :
  feedbackCount s' = feedbackCount s ->
  feedbacks s' = feedbacks s ->
  citizenFeedbacks s' = citizenFeedbacks s ->
  List.filter isSubmittedEvent (events s') =
    List.filter isSubmittedEvent (events s) ->
  ledger_invariant s -> ledger_invariant s'.
Proof.
  unfold ledger_invariant, citizenFeedbacksAt.
  intros -> -> -> ->. exact (fun H => H).
Qed.

Lemma filter_snoc_false {A} (f : A -> bool) l x :
  f x = false -> List.filter f (l ++ [x]) = List.filter f l.
Proof.
  intros Hx. rewrite List.filter_app. cbn [List.filter]. rewrite Hx.
  apply app_nil_r.
Qed.

Lemma filter_snoc_true {A} (f : A -> bool) l x :
  f x = true -> List.filter f (l ++ [x]) = List.filter f l ++ [x].
Proof.
  intros Hx. rewrite List.filter_app. cbn [List.filter]. now rewrite Hx.
Qed.

Lemma citizenFeedbacksAt_submittedState env a b c d s who :
  citizenFeedbacksAt (submittedState env a b c d s) who =
  if decide (who = msg_sender env)
  then citizenFeedbacksAt s who ++ [feedbackCount s + 1]
  else citizenFeedbacksAt s who.
Proof.
  unfold citizenFeedbacksAt at 1.
  change (citizenFeedbacks (submittedState env a b c d s))
    with (<[msg_sender env :=
              citizenFeedbacksAt s (msg_sender env) ++ [feedbackCount s + 1]]>
            (citizenFeedbacks s)).
  case_decide as Hw.
  - subst who. now rewrite lookup_insert_eq.
  - now rewrite lookup_insert_ne by congruence.
Qed.

Lemma feedbacks_submittedState env a b c d s :
  feedbacks (submittedState env a b c d s) =
  <[feedbackCount s + 1 :=
      mkFeedback (feedbackCount s + 1) (msg_sender env) a b c d
        (block_timestamp env)]> (feedbacks s).
Proof. reflexivity. Qed.

Lemma ledger_invariant_submit env a b c d s :
  ledger_invariant s -> ledger_invariant (submittedState env a b c d s).
Proof.
  intros (Hc & Hdom & Hid & Hidx & Hsort & Hev).
  assert (Hfresh : feedbacks s !! (feedbackCount s + 1) = None).
  { destruct (feedbacks s !! (feedbackCount s + 1)) eqn:E; [|reflexivity].
    assert (is_Some (feedbacks s !! (feedbackCount s + 1))) as Hs by eauto.
    apply Hdom in Hs. lia. }
  assert (Hbound : forall who k, k ∈ citizenFeedbacksAt s who ->
                                 1 <= k <= feedbackCount s).
  { intros who k Hk. apply Hidx in Hk as (f & Hf & _). apply Hdom. eauto. }
  unfold ledger_invariant.
  change (feedbackCount (submittedState env a b c d s)) with (feedbackCount s + 1).
  change (events (submittedState env a b c d s))
    with (events s ++ [FeedbackSubmitted (feedbackCount s + 1) (msg_sender env)]).
  rewrite feedbacks_submittedState.
  split; [lia|]. split; [|split; [|split; [|split]]].
  - intros k. rewrite lookup_insert. case_decide as Hk.
    + subst k. split; [intros _; lia | eauto].
    + rewrite Hdom. lia.
  - intros k f. rewrite lookup_insert. case_decide as Hk.
    + intros [= <-]. exact Hk.
    + apply Hid.
  - intros who k. rewrite citizenFeedbacksAt_submittedState.
    rewrite lookup_insert. case_decide as Hw; case_decide as Hk.
    + subst. rewrite elem_of_app, list_elem_of_singleton. split; [|auto].
      intros _. eexists. split; reflexivity.
    + rewrite elem_of_app, list_elem_of_singleton, Hidx. split.
      * intros [H | H]; [exact H | congruence].
      * auto.
    + subst k. split.
      * intros Hk. apply Hbound in Hk. lia.
      * intros (f & [= <-] & Hf). cbn [citizen] in Hf. congruence.
    + apply Hidx.
  - intros who. rewrite citizenFeedbacksAt_submittedState.
    case_decide; [|apply Hsort].
    apply StronglySorted_app_2; [|apply Hsort|repeat constructor].
    intros x1 x2 Hx1 Hx2. apply list_elem_of_singleton in Hx2 as ->.
    apply Hbound in Hx1. lia.
  - rewrite filter_snoc_true by reflexivity.
    rewrite List.length_app. cbn [length]. lia.
Qed.

Lemma ledger_invariant_effect s s' :
  ledger_invariant s -> effect s s' -> ledger_invariant s'.
Proof.
  intros Hs [| m | env a b c d _ | fid | k _ _ | r t a c i _ _ _ _ _ _ _].
  - exact Hs.
  - revert Hs. now apply ledger_invariant_frame.
  - now apply ledger_invariant_submit.
  - revert Hs. apply ledger_invariant_frame; try reflexivity.
    change (events (updatedState fid s)) with (events s ++ [AggregationUpdated 1]).
    now apply filter_snoc_false.
  - revert Hs. now apply ledger_invariant_frame.
  - revert Hs. apply ledger_invariant_frame; try reflexivity.
    change (events (revealedState (serviceTypeOfRequest s r) t a c i s))
      with (events s ++ [AggregateDecrypted (serviceTypeOfRequest s r)]).
    now apply filter_snoc_false.
Qed.

Lemma ledger_invariant_constructor env : ledger_invariant (constructor env).
Proof.
  unfold ledger_invariant, citizenFeedbacksAt, constructor.
  cbn [feedbackCount feedbacks citizenFeedbacks events].
  split; [lia|]. split; [|split; [|split; [|split]]].
  - intros k. rewrite lookup_empty. split; [intros [? [=]] | lia].
  - intros k f. rewrite lookup_empty. discriminate.
  - intros who k. rewrite !lookup_empty. cbn [default]. split.
    + intros H. now apply elem_of_nil in H.
    + intros (f & [=] & _).
  - intros who. rewrite lookup_empty. constructor.
  - reflexivity.
Qed.

Lemma reachable_ledger_invariant checkSignatures s :
  reachable checkSignatures s -> ledger_invariant s.
Proof.
  apply effect_invariant_reachable.
  - apply ledger_invariant_constructor.
  - apply ledger_invariant_effect.
Qed.

(** ** Ranges of the library's results *)

Lemma wrap32_in_range z : in_uint32 (wrap32 z).
Proof. unfold in_uint32, wrap32. apply Z.mod_pos_bound. reflexivity. Qed.

Lemma wrap32_small z : in_uint32 z -> wrap32 z = z.
Proof. unfold in_uint32, wrap32. intros H. now apply Z.mod_small. Qed.

Lemma handle_ok_asEuint32 v : handle_ok (FHE.asEuint32 v).
Proof. eexists. split; [reflexivity | apply wrap32_in_range]. Qed.

Lemma handle_ok_add a b : handle_ok (FHE.add a b).
Proof. eexists. split; [reflexivity | apply wrap32_in_range]. Qed.

Lemma handle_ok_sub a b : handle_ok (FHE.sub a b).
Proof. eexists. split; [reflexivity | apply wrap32_in_range]. Qed.

Lemma handle_ok_mul a b : handle_ok (FHE.mul a b).
Proof. eexists. split; [reflexivity | apply wrap32_in_range]. Qed.

Lemma handle_ok_div a b : handle_ok (FHE.div a b).
Proof.
  unfold FHE.div. destruct (FHE.plain b =? 0).
  - eexists. split; [reflexivity|]. unfold in_uint32, uint32_modulus. lia.
  - eexists. split; [reflexivity | apply wrap32_in_range].
Qed.

Lemma handle_ok_plain h : handle_ok h -> in_uint32 (FHE.plain h).
Proof. intros (v & -> & Hv). exact Hv. Qed.

Lemma handle_ok_initialized h : handle_ok h -> FHE.isInitialized h = true.
Proof. now intros (v & -> & _). Qed.

Lemma updatedAggregate_ok f a :
  handle_ok (encryptedTotalRating (updatedAggregate f a)) /\
  handle_ok (encryptedResponseAvg (updatedAggregate f a)) /\
  handle_ok (encryptedFeedbackCount (updatedAggregate f a)) /\
  handle_ok (encryptedImprovementScore (updatedAggregate f a)).
Proof.
  unfold updatedAggregate, calculateImprovementScore.
  cbn [encryptedTotalRating encryptedResponseAvg encryptedFeedbackCount
       encryptedImprovementScore].
  repeat split; first [apply handle_ok_add | apply handle_ok_div].
Qed.

(** ** The aggregates *)

Lemma serviceAggregates_updatedState fid s :
  serviceAggregates (updatedState fid s) =
  <[1 := updatedAggregate (feedbackAt s fid) (aggregateAt s 1)]>
    (serviceAggregates s).
Proof. reflexivity. Qed.

Lemma aggregate_invariant_effect s s' :
  aggregate_invariant s -> effect s s' -> aggregate_invariant s'.
Proof.
  intros Hs [| m | env a b c d _ | fid | k _ _ | r t a c i _ _ _ _ _ _ _];
    try exact Hs.
  destruct Hs as [Hother Hone]. unfold aggregate_invariant.
  rewrite serviceAggregates_updatedState. split.
  - intros k Hk. rewrite lookup_insert_ne by congruence. now apply Hother.
  - intros a. rewrite lookup_insert_eq. intros [= <-]. apply updatedAggregate_ok.
Qed.

Lemma aggregate_invariant_constructor env : aggregate_invariant (constructor env).
Proof.
  unfold aggregate_invariant, constructor. cbn [serviceAggregates]. split.
  - intros k _. apply lookup_empty.
  - intros a. rewrite lookup_empty. discriminate.
Qed.

Lemma reachable_aggregate_invariant checkSignatures s :
  reachable checkSignatures s -> aggregate_invariant s.
Proof.
  apply effect_invariant_reachable.
  - apply aggregate_invariant_constructor.
  - apply aggregate_invariant_effect.
Qed.

Lemma aggregate_invariant_initialized s k :
  aggregate_invariant s ->
  FHE.isInitialized (encryptedFeedbackCount (aggregateAt s k)) = true -> k = 1.
Proof.
  intros [Hother _] Hk. destruct (decide (k = 1)) as [|Hne]; [assumption|].
  unfold aggregateAt in Hk. rewrite (Hother k Hne) in Hk. discriminate.
Qed.

(** ** The reveal protocol *)

Lemma reveal_invariant_frame s s' :
  counterRequest s' = counterRequest s ->
  requestToServiceType s' = requestToServiceType s ->
  decryptedAggregates s' = decryptedAggregates s ->
  (forall k, List.filter (isDecryptedEvent k) (events s') =
             List.filter (isDecryptedEvent k) (events s)) ->
  reveal_invariant s -> reveal_invariant s'.
Proof.
  unfold reveal_invariant, decryptedAt.
  intros -> -> -> Hev (H1 & H2 & H3 & H4 & H5).
  split; [exact H1|]. split; [exact H2|]. split; [exact H3|].
  split; [exact H4|]. intros k. rewrite Hev. apply H5.
Qed.

Lemma serviceTypeOfRequest_bound s r :
  serviceTypeOfRequest s r <> 0 ->
  requestToServiceType s !! r = Some (serviceTypeOfRequest s r).
Proof.
  unfold serviceTypeOfRequest.
  destruct (requestToServiceType s !! r) as [k|]; simpl; intros Hk;
    [reflexivity | now contradiction Hk].
Qed.

Lemma div_in_range t c : in_uint32 t -> in_uint32 c -> c <> 0 -> in_uint32 (t / c).
Proof.
  unfold in_uint32. intros Ht Hc Hc0. split.
  - apply Z.div_pos; lia.
  - apply Z.le_lt_trans with t; [|lia]. apply Z.div_le_upper_bound; nia.
Qed.

Lemma reveal_invariant_effect s s' :
  aggregate_invariant s -> reveal_invariant s -> effect s s' ->
  reveal_invariant s'.
Proof.
  intros Hagg Hs
    [| m | env a b c d _ | fid | k Hinit Hnot
     | r t a c i Hbound Hnot Ht Ha Hc Hc0 Hi].
  - exact Hs.
  - revert Hs. now apply reveal_invariant_frame.
  - revert Hs. apply reveal_invariant_frame; try reflexivity.
    intros k.
    change (events (submittedState env a b c d s))
      with (events s ++ [FeedbackSubmitted (feedbackCount s + 1) (msg_sender env)]).
    now apply filter_snoc_false.
  - revert Hs. apply reveal_invariant_frame; try reflexivity.
    intros k.
    change (events (updatedState fid s)) with (events s ++ [AggregationUpdated 1]).
    now apply filter_snoc_false.
  - destruct Hs as (H1 & H2 & H3 & H4 & H5).
    apply (aggregate_invariant_initialized s k Hagg) in Hinit. subst k.
    unfold reveal_invariant, decryptedAt.
    change (counterRequest (requestedState 1 s)) with (counterRequest s + 1).
    change (requestToServiceType (requestedState 1 s))
      with (<[counterRequest s := 1]> (requestToServiceType s)).
    change (decryptedAggregates (requestedState 1 s)) with (decryptedAggregates s).
    change (events (requestedState 1 s)) with (events s).
    split; [lia|]. split; [|split; [|split]].
    + intros r. rewrite lookup_insert. case_decide as Hr.
      * subst r. split; [intros _; lia | eauto].
      * rewrite H2. lia.
    + intros r k. rewrite lookup_insert. case_decide; [congruence | apply H3].
    + exact H4.
    + exact H5.
  - destruct Hs as (H1 & H2 & H3 & H4 & H5).
    pose proof (H3 _ _ (serviceTypeOfRequest_bound s r Hbound)) as Hk.
    rewrite Hk in *.
    unfold reveal_invariant.
    change (counterRequest (revealedState 1 t a c i s)) with (counterRequest s).
    change (requestToServiceType (revealedState 1 t a c i s))
      with (requestToServiceType s).
    change (decryptedAggregates (revealedState 1 t a c i s))
      with (<[1 := mkDecrypted (t / c) a c i true]> (decryptedAggregates s)).
    change (events (revealedState 1 t a c i s))
      with (events s ++ [AggregateDecrypted 1]).
    split; [exact H1|]. split; [exact H2|]. split; [exact H3|]. split.
    + intros k d. rewrite lookup_insert. case_decide as Hk1; [|apply H4].
      intros [= <-]. cbn [isRevealed avgRating avgResponseTime dFeedbackCount
                          improvementScore].
      repeat split; try assumption; try apply div_in_range; try assumption;
        try (symmetry; assumption); apply Ht || apply Ha || apply Hc || apply Hi.
    + intros k. rewrite decryptedAt_revealedState. case_decide as Hk1.
      * subst k. rewrite filter_snoc_true by reflexivity.
        rewrite List.length_app, H5, Hnot. reflexivity.
      * rewrite filter_snoc_false; [apply H5|].
        cbn [isDecryptedEvent]. apply Z.eqb_neq. congruence.
Qed.

Lemma reveal_invariant_constructor env : reveal_invariant (constructor env).
Proof.
  unfold reveal_invariant, decryptedAt, constructor.
  cbn [counterRequest requestToServiceType decryptedAggregates events].
  split; [lia|]. split; [|split; [|split]].
  - intros r. rewrite lookup_empty. split; [intros [? [=]] | lia].
  - intros r k. rewrite lookup_empty. discriminate.
  - intros k d. rewrite lookup_empty. discriminate.
  - intros k. rewrite lookup_empty. reflexivity.
Qed.

Lemma reachable_reveal_invariant checkSignatures s :
  reachable checkSignatures s -> reveal_invariant s.
Proof.
  intros Hs.
  cut (aggregate_invariant s /\ reveal_invariant s); [now intros []|].
  revert s Hs. apply effect_invariant_reachable.
  - intros env. split;
      [apply aggregate_invariant_constructor | apply reveal_invariant_constructor].
  - intros s s' [Ha Hr] He. split.
    + now apply (aggregate_invariant_effect s).
    + now apply (reveal_invariant_effect s).
Qed.

(** ** Runs *)

Section Runs.

Variable checkSignatures : Z -> list byte -> list byte -> bool.

Lemma run_cons s tx txs :
  run checkSignatures s (tx :: txs) =
  run checkSignatures (transact checkSignatures s tx) txs.
Proof. reflexivity. Qed.

(** A relation that every effect respects holds along every run. *)
Lemma run_preserves (R : State -> State -> Prop) :
  (forall s, R s s) ->
  (forall s1 s2 s3, R s1 s2 -> R s2 s3 -> R s1 s3) ->
  (forall s s', effect s s' -> R s s') ->
  forall txs s, R s (run checkSignatures s txs).
Proof.
  intros Hrefl Htrans Hstep txs.
  induction txs as [|tx txs IH]; intros s; [apply Hrefl|].
  rewrite run_cons. eapply Htrans; [|apply IH].
  apply Hstep, transact_effect.
Qed.

Lemma reachable_transact s tx :
  reachable checkSignatures s ->
  reachable checkSignatures (transact checkSignatures s tx).
Proof. intros H. apply (reachable_run checkSignatures s [tx] H). Qed.

(** A property that effects keep in reachable storage holds along every
    run from a reachable storage. *)
Lemma run_preserves_reachable (P : State -> Prop) :
  (forall s s', reachable checkSignatures s -> P s -> effect s s' -> P s') ->
  forall txs s, reachable checkSignatures s -> P s ->
                P (run checkSignatures s txs).
Proof.
  intros Hstep txs. induction txs as [|tx txs IH]; intros s Hr Hs; [exact Hs|].
  rewrite run_cons. apply IH; [now apply reachable_transact|].
  eapply Hstep; [exact Hr | exact Hs | apply transact_effect].
Qed.

End Runs.

Lemma effect_govAdmin s s' : effect s s' -> govAdmin s' = govAdmin s.
Proof. now intros []. Qed.

Lemma isManager_authorizedState m s a :
  isManager (authorizedState m s) a =
  if decide (a = m) then true else isManager s a.
Proof.
  unfold isManager, authorizedState.
  change (authorizedManagers
            (set_authorizedManagers (<[m := true]> (authorizedManagers s)) s))
    with (<[m := true]> (authorizedManagers s)).
  case_decide as Ha.
  - subst a. now rewrite lookup_insert_eq.
  - now rewrite lookup_insert_ne by congruence.
Qed.

Lemma effect_isManager s s' a :
  effect s s' -> isManager s a = true -> isManager s' a = true.
Proof.
  intros [] Ha; try exact Ha.
  rewrite isManager_authorizedState. now case_decide.
Qed.

(** ** Authorisation *)

(** X1.  [authorizeManager] is reserved to the administrator: any other
    caller gets "Not admin" and the storage is unchanged; for the
    administrator the call succeeds, the named address becomes a manager, no
    other address gains or loses the capability, and the administrator stays
    the same. *)
Theorem authorizeManager_contract env manager s :
  (msg_sender env <> govAdmin s ->
   authorizeManager env manager s = Reverted NotAdmin /\
   stateAfter (authorizeManager env manager) s = s) /\
  (msg_sender env = govAdmin s ->
   exists s',
     authorizeManager env manager s = Success tt s' /\
     isManager s' manager = true /\
     (forall a, a <> manager -> isManager s' a = isManager s a) /\
     govAdmin s' = govAdmin s).
Proof.
  unfold stateAfter. rewrite authorizeManager_eq. split.
  - intros Hne. apply Z.eqb_neq in Hne. rewrite Hne. split; reflexivity.
  - intros He. apply Z.eqb_eq in He. rewrite He. eexists. split; [reflexivity|].
    split; [|split; [|reflexivity]].
    + rewrite isManager_authorizedState. now case_decide.
    + intros a Ha. rewrite isManager_authorizedState. now case_decide.
Qed.

Lemma authorizeManager_contract_witness :
  authorizeManager citizenEnv 300 (stateOf txsSubmitted) = Reverted NotAdmin /\
  exists s',
    authorizeManager adminEnv 300 (stateOf txsSubmitted) = Success tt s' /\
    isManager s' 300 = true.
Proof.
  destruct (authorizeManager_contract citizenEnv 300 (stateOf txsSubmitted))
    as [Hno _].
  destruct (authorizeManager_contract adminEnv 300 (stateOf txsSubmitted))
    as [_ Hyes].
  split.
  - apply Hno. vm_compute. congruence.
  - destruct Hyes as (s' & Hs' & Hm & _); [vm_compute; reflexivity|].
    exists s'. split; assumption.
Defined.

(** X2.  The administrator is fixed at deployment: after any sequence of
    transactions [govAdmin] is still the deployer. *)
Theorem govAdmin_is_immutable checkSignatures deployer txs :
  govAdmin (run checkSignatures (constructor deployer) txs) = msg_sender deployer.
Proof.
  change (msg_sender deployer) with (govAdmin (constructor deployer)).
  apply (run_preserves checkSignatures (fun s s' => govAdmin s' = govAdmin s)).
  - reflexivity.
  - intros s1 s2 s3 H12 H23. now rewrite H23.
  - apply effect_govAdmin.
Qed.

(** X3.  The manager capability is never revoked: an address that is a
    manager stays one after any sequence of transactions. *)
Theorem manager_is_never_revoked checkSignatures s txs a :
  isManager s a = true ->
  isManager (run checkSignatures s txs) a = true.
Proof.
  revert s. induction txs as [|tx txs IH]; intros s Ha; [exact Ha|].
  rewrite run_cons. apply IH.
  eapply effect_isManager; [apply transact_effect | exact Ha].
Qed.

Lemma manager_is_never_revoked_witness :
  isManager (run acceptNonEmpty (stateOf txsSubmitted)
               [(citizenEnv, UpdateServiceAggregates 1);
                (managerEnv, RequestAggregateDecryption 1)]) 200 = true.
Proof.
  apply (manager_is_never_revoked acceptNonEmpty (stateOf txsSubmitted)).
  vm_compute. reflexivity.
Defined.

Lemma transact_isManager checkSignatures s tx a :
  isManager (transact checkSignatures s tx) a = true ->
  isManager s a = true \/
  (exists env, tx = (env, AuthorizeManager a) /\ msg_sender env = govAdmin s).
Proof.
  destruct tx as [env c]. destruct c;
    unfold transact, stateAfter, dispatch, fst, snd.
  - rewrite authorizeManager_eq.
    destruct (msg_sender env =? govAdmin s) eqn:He; [|auto].
    rewrite isManager_authorizedState. case_decide as Ha; [|auto].
    subst a. intros _. right. exists env. split; [reflexivity|].
    now apply Z.eqb_eq.
  - rewrite submitEncryptedFeedback_eq.
    destruct (feedbackCount s <? uint256_max); auto.
  - rewrite updateServiceAggregates_eq. auto.
  - rewrite requestAggregateDecryption_eq.
    destruct (negb (isManager s (msg_sender env))); auto.
    destruct (negb (FHE.isInitialized
                      (encryptedFeedbackCount (aggregateAt s serviceType)))); auto.
    destruct (isRevealed (decryptedAt s serviceType)); auto.
  - rewrite decryptAggregateData_eq. cbv zeta.
    destruct (serviceTypeOfRequest s requestId =? 0); auto.
    destruct (isRevealed (decryptedAt s (serviceTypeOfRequest s requestId))); auto.
    destruct (negb (checkSignatures requestId cleartexts proof)); auto.
    destruct (abi_decode_uint32x4 cleartexts) as [[[[t a0] c] i]|]; auto.
    destruct (c =? 0); auto.
Qed.

Lemma run_isManager checkSignatures txs s a :
  isManager (run checkSignatures s txs) a = true ->
  isManager s a = true \/
  (exists env, (env, AuthorizeManager a) ∈ txs /\ msg_sender env = govAdmin s).
Proof.
  revert s. induction txs as [|tx txs IH]; intros s Ha; [auto|].
  rewrite run_cons in Ha. apply IH in Ha as [Ha | (env & Hin & He)].
  - apply transact_isManager in Ha as [Ha | (env & -> & He)]; [auto|].
    right. exists env. split; [apply list_elem_of_here | exact He].
  - right. exists env. split; [now apply list_elem_of_further|].
    rewrite He. apply effect_govAdmin, transact_effect.
Qed.

(** X4.  Managers are made by the administrator only: an address that is a
    manager after a sequence of transactions was named in an
    [authorizeManager] transaction of that sequence sent by the deployer. *)
Theorem manager_was_authorized_by_admin checkSignatures deployer txs a :
  isManager (run checkSignatures (constructor deployer) txs) a = true ->
  exists env,
    (env, AuthorizeManager a) ∈ txs /\ msg_sender env = msg_sender deployer.
Proof.
  intros Ha. apply run_isManager in Ha as [Ha | Ha]; [|exact Ha].
  unfold isManager, constructor in Ha. cbn [authorizedManagers] in Ha.
  rewrite lookup_empty in Ha. discriminate.
Qed.

Lemma manager_was_authorized_by_admin_witness :
  exists env,
    (env, AuthorizeManager 200) ∈ txsSubmitted /\
    msg_sender env = msg_sender adminEnv.
Proof.
  apply (manager_was_authorized_by_admin acceptNonEmpty adminEnv txsSubmitted 200).
  vm_compute. reflexivity.
Defined.

(** ** The ledger *)

(** X5.  Feedback ids are dense and self-describing: in reachable storage a
    record is stored under [k] exactly for [1 <= k <= feedbackCount], the
    record stored under [k] carries the id [k], and one [FeedbackSubmitted]
    event was logged per record. *)
Theorem feedback_ids_are_dense checkSignatures s :
  reachable checkSignatures s ->
  (forall k, is_Some (feedbacks s !! k) <-> 1 <= k <= feedbackCount s) /\
  (forall k f, feedbacks s !! k = Some f -> id f = k) /\
  Z.of_nat (length (List.filter isSubmittedEvent (events s))) = feedbackCount s.
Proof.
  intros Hr.
  destruct (reachable_ledger_invariant checkSignatures s Hr)
    as (_ & Hdom & Hid & _ & _ & Hev).
  auto.
Qed.

Lemma feedback_ids_are_dense_witness :
  (forall k, is_Some (feedbacks (stateOf txsRevealed) !! k) <->
             1 <= k <= feedbackCount (stateOf txsRevealed)) /\
  (forall k f, feedbacks (stateOf txsRevealed) !! k = Some f -> id f = k) /\
  Z.of_nat (length (List.filter isSubmittedEvent (events (stateOf txsRevealed)))) =
    feedbackCount (stateOf txsRevealed).
Proof.
  apply (feedback_ids_are_dense acceptNonEmpty).
  exists adminEnv, txsRevealed. reflexivity.
Defined.

Lemma effect_feedbacks s s' k f :
  ledger_invariant s -> effect s s' ->
  feedbacks s !! k = Some f -> feedbacks s' !! k = Some f.
Proof.
  intros (_ & Hdom & _) [| m | env a b c d _ | fid | k' _ _
                         | r t a c i _ _ _ _ _ _ _] Hk; try exact Hk.
  rewrite feedbacks_submittedState, lookup_insert_ne; [exact Hk|].
  intros <-. assert (is_Some (feedbacks s !! (feedbackCount s + 1))) as Hs by eauto.
  apply Hdom in Hs. lia.
Qed.

(** X6.  A feedback record is immutable: once stored in reachable storage
    it is found unchanged under the same id after any further
    transactions. *)
Theorem feedback_is_immutable checkSignatures s txs k f :
  reachable checkSignatures s ->
  feedbacks s !! k = Some f ->
  feedbacks (run checkSignatures s txs) !! k = Some f.
Proof.
  intros Hr Hk. revert Hr Hk.
  apply (run_preserves_reachable checkSignatures
           (fun s => feedbacks s !! k = Some f)).
  intros s0 s' Hr0 Hk0 He.
  apply (effect_feedbacks s0); [|assumption..].
  now apply (reachable_ledger_invariant checkSignatures).
Qed.

Lemma feedback_is_immutable_witness :
  feedbacks (run acceptNonEmpty (stateOf txsSubmitted)
               [(citizenEnv, SubmitEncryptedFeedback (Some 1) (Some 2) (Some 50) (Some 0));
                (citizenEnv, UpdateServiceAggregates 2)]) !! 2 =
  Some (mkFeedback 2 300 (Some 1) (Some 3) (Some 30) (Some 0) 1002).
Proof.
  apply (feedback_is_immutable acceptNonEmpty (stateOf txsSubmitted)).
  - exists adminEnv, txsSubmitted. reflexivity.
  - vm_compute. reflexivity.
Defined.

(** X7.  [submitEncryptedFeedback] fails only when the id counter is at
    its maximum (arithmetic overflow).  Otherwise it allocates the id
    [feedbackCount + 1], stores under it a record with that id, the caller as
    citizen, the four handles as given and the block timestamp, appends the
    id to the caller's index, leaves the index of every other address, the
    aggregates, the snapshots and the managers as they were, and logs
    [FeedbackSubmitted]. *)
Theorem submitEncryptedFeedback_contract env a b c d s :
  (uint256_max <= feedbackCount s ->
   submitEncryptedFeedback env a b c d s = Reverted PanicOverflow) /\
  (feedbackCount s < uint256_max ->
   exists s',
     submitEncryptedFeedback env a b c d s = Success tt s' /\
     feedbackCount s' = feedbackCount s + 1 /\
     feedbacks s' !! (feedbackCount s + 1) =
       Some (mkFeedback (feedbackCount s + 1) (msg_sender env) a b c d
               (block_timestamp env)) /\
     getCitizenFeedbacks s' (msg_sender env) =
       getCitizenFeedbacks s (msg_sender env) ++ [feedbackCount s + 1] /\
     (forall who, who <> msg_sender env ->
                  getCitizenFeedbacks s' who = getCitizenFeedbacks s who) /\
     serviceAggregates s' = serviceAggregates s /\
     decryptedAggregates s' = decryptedAggregates s /\
     authorizedManagers s' = authorizedManagers s /\
     events s' = events s ++
       [FeedbackSubmitted (feedbackCount s + 1) (msg_sender env)]).
Proof.
  rewrite submitEncryptedFeedback_eq. split.
  - intros H. apply Z.ltb_ge in H. now rewrite H.
  - intros H. apply Z.ltb_lt in H. rewrite H. eexists. split; [reflexivity|].
    split; [reflexivity|]. split; [|split; [|split]].
    + rewrite feedbacks_submittedState. apply lookup_insert_eq.
    + unfold getCitizenFeedbacks. rewrite citizenFeedbacksAt_submittedState.
      now case_decide.
    + intros who Hw. unfold getCitizenFeedbacks.
      rewrite citizenFeedbacksAt_submittedState. now case_decide.
    + repeat split.
Qed.

Lemma submitEncryptedFeedback_contract_witness :
  exists s',
    submitEncryptedFeedback outsiderEnv (Some 2) (Some 1) (Some 90) (Some 0)
      (stateOf txsSubmitted) = Success tt s' /\
    feedbackCount s' = 4 /\
    getCitizenFeedbacks s' 400 = [4] /\
    getCitizenFeedbacks s' 300 = [1; 2; 3].
Proof.
  destruct (submitEncryptedFeedback_contract outsiderEnv (Some 2) (Some 1)
              (Some 90) (Some 0) (stateOf txsSubmitted)) as [_ Hok].
  destruct Hok as (s' & Hs' & Hc & _ & Hmine & Hother & _);
    [vm_compute; reflexivity|].
  exists s'. split; [exact Hs'|]. split; [rewrite Hc; vm_compute; reflexivity|].
  split.
  - etransitivity; [exact Hmine | vm_compute; reflexivity].
  - etransitivity; [apply (Hother 300); vm_compute; congruence
                   | vm_compute; reflexivity].
Defined.

(** X8.  The per-citizen index is exact and ordered: in reachable storage
    [getCitizenFeedbacks] of an address lists exactly the ids of the stored
    records whose citizen is that address, in strictly increasing order, so
    without repetition; an address that never submitted gets the empty
    list. *)
Theorem getCitizenFeedbacks_is_exact checkSignatures s who :
  reachable checkSignatures s ->
  (forall k, k ∈ getCitizenFeedbacks s who <->
             exists f, feedbacks s !! k = Some f /\ citizen f = who) /\
  StronglySorted Z.lt (getCitizenFeedbacks s who) /\
  ((forall k f, feedbacks s !! k = Some f -> citizen f <> who) ->
   getCitizenFeedbacks s who = []).
Proof.
  intros Hr.
  destruct (reachable_ledger_invariant checkSignatures s Hr)
    as (_ & _ & _ & Hidx & Hsort & _).
  unfold getCitizenFeedbacks. split; [apply Hidx|]. split; [apply Hsort|].
  intros Hnone. apply elem_of_nil_inv. intros k Hk.
  apply Hidx in Hk as (f & Hf & Hc). exact (Hnone k f Hf Hc).
Qed.

Lemma getCitizenFeedbacks_is_exact_witness :
  (forall k, k ∈ getCitizenFeedbacks (stateOf txsRevealed) 300 <->
             exists f, feedbacks (stateOf txsRevealed) !! k = Some f /\
                       citizen f = 300) /\
  StronglySorted Z.lt (getCitizenFeedbacks (stateOf txsRevealed) 300) /\
  ((forall k f, feedbacks (stateOf txsRevealed) !! k = Some f -> citizen f <> 300) ->
   getCitizenFeedbacks (stateOf txsRevealed) 300 = []).
Proof.
  apply (getCitizenFeedbacks_is_exact acceptNonEmpty).
  exists adminEnv, txsRevealed. reflexivity.
Defined.

Lemma effect_events s s' : effect s s' -> exists l, events s' = events s ++ l.
Proof.
  intros []; try (exists []; symmetry; apply app_nil_r); eexists; reflexivity.
Qed.

(** X9.  The event log is append-only: the log after any sequence of
    transactions extends the log before it. *)
Theorem events_are_append_only checkSignatures s txs :
  exists l, events (run checkSignatures s txs) = events s ++ l.
Proof.
  apply (run_preserves checkSignatures
           (fun s s' => exists l, events s' = events s ++ l)).
  - intros s0. exists []. symmetry. apply app_nil_r.
  - intros s1 s2 s3 [l1 H1] [l2 H2]. exists (l1 ++ l2).
    rewrite H2, H1. symmetry. apply app_assoc.
  - apply effect_events.
Qed.

(** ** Plaintexts of the library's results *)

Lemma plain_asEuint32 v : in_uint32 v -> FHE.plain (FHE.asEuint32 v) = v.
Proof. intros Hv. unfold FHE.asEuint32, FHE.plain. cbn [default]. now apply wrap32_small. Qed.

Lemma plain_add a b : FHE.plain (FHE.add a b) = wrap32 (FHE.plain a + FHE.plain b).
Proof. reflexivity. Qed.

Lemma plain_sub a b : FHE.plain (FHE.sub a b) = wrap32 (FHE.plain a - FHE.plain b).
Proof. reflexivity. Qed.

Lemma plain_mul a b : FHE.plain (FHE.mul a b) = wrap32 (FHE.plain a * FHE.plain b).
Proof. reflexivity. Qed.

Lemma plain_div a b :
  FHE.plain b <> 0 -> FHE.plain (FHE.div a b) = wrap32 (FHE.plain a / FHE.plain b).
Proof.
  intros Hb. unfold FHE.div. apply Z.eqb_neq in Hb. now rewrite Hb.
Qed.

Lemma in_uint32_small v : 0 <= v < 4294967296 -> in_uint32 v.
Proof. exact (fun H => H). Qed.

(** The aggregate of service type 1 in reachable storage: never written, or
    written with four in-range handles. *)
Lemma reachable_aggregate_cases checkSignatures s :
  reachable checkSignatures s ->
  (serviceAggregates s !! 1 = None /\ aggregateAt s 1 = zeroAggregate) \/
  (handle_ok (encryptedTotalRating (aggregateAt s 1)) /\
   handle_ok (encryptedResponseAvg (aggregateAt s 1)) /\
   handle_ok (encryptedFeedbackCount (aggregateAt s 1)) /\
   handle_ok (encryptedImprovementScore (aggregateAt s 1))).
Proof.
  intros Hr. destruct (reachable_aggregate_invariant checkSignatures s Hr) as [_ Hone].
  unfold aggregateAt. destruct (serviceAggregates s !! 1) as [a|] eqn:Ha.
  - right. now apply Hone.
  - left. split; reflexivity.
Qed.

(** After its initialisation branch the update sees four in-range handles
    whose plaintexts are those of the stored aggregate. *)
Lemma reachable_initAggregate checkSignatures s :
  reachable checkSignatures s ->
  let a := aggregateAt s 1 in
  let a0 := initAggregate a in
  (in_uint32 (FHE.plain (encryptedTotalRating a)) /\
   in_uint32 (FHE.plain (encryptedResponseAvg a)) /\
   in_uint32 (FHE.plain (encryptedFeedbackCount a)) /\
   in_uint32 (FHE.plain (encryptedImprovementScore a))) /\
  (FHE.plain (encryptedTotalRating a0) = FHE.plain (encryptedTotalRating a) /\
   FHE.plain (encryptedResponseAvg a0) = FHE.plain (encryptedResponseAvg a) /\
   FHE.plain (encryptedFeedbackCount a0) = FHE.plain (encryptedFeedbackCount a) /\
   FHE.plain (encryptedImprovementScore a0) = FHE.plain (encryptedImprovementScore a)).
Proof.
  intros Hr. cbv zeta.
  destruct (reachable_aggregate_cases checkSignatures s Hr)
    as [[_ ->] | (Ht & Ha & Hc & Hi)].
  - split; [|repeat split]. repeat split; vm_compute; congruence.
  - split.
    + repeat split; now apply handle_ok_plain.
    + unfold initAggregate. rewrite (handle_ok_initialized _ Hc). repeat split.
Qed.

(** ** The aggregates *)

(** X10.  Only service type 1 is ever served: in reachable storage no other
    key of [serviceAggregates] or of [decryptedAggregates] is written, every
    request id is unbound or bound to service type 1, and a manager's
    [requestAggregateDecryption] for another service type reverts with
    "No data". *)
Theorem only_service_type_1_is_served checkSignatures s k :
  reachable checkSignatures s ->
  k <> 1 ->
  serviceAggregates s !! k = None /\
  decryptedAggregates s !! k = None /\
  (forall r, serviceTypeOfRequest s r = 0 \/ serviceTypeOfRequest s r = 1) /\
  (forall env, isManager s (msg_sender env) = true ->
               requestAggregateDecryption env k s = Reverted NotFound).
Proof.
  intros Hr Hk.
  destruct (reachable_aggregate_invariant checkSignatures s Hr) as [Hother _].
  destruct (reachable_reveal_invariant checkSignatures s Hr)
    as (_ & _ & Hbind & Hsnap & _).
  split; [now apply Hother|]. split; [|split].
  - destruct (decryptedAggregates s !! k) as [d|] eqn:Hd; [|reflexivity].
    apply Hsnap in Hd as [Hk1 _]. contradiction.
  - intros r. unfold serviceTypeOfRequest.
    destruct (requestToServiceType s !! r) as [k'|] eqn:Hr'; [|now left].
    right. apply (Hbind r k' Hr').
  - intros env Hm. rewrite requestAggregateDecryption_eq, Hm.
    unfold aggregateAt. now rewrite (Hother k Hk).
Qed.

Lemma only_service_type_1_is_served_witness :
  serviceAggregates (stateOf txsRevealed) !! 2 = None /\
  decryptedAggregates (stateOf txsRevealed) !! 2 = None /\
  (forall r, serviceTypeOfRequest (stateOf txsRevealed) r = 0 \/
             serviceTypeOfRequest (stateOf txsRevealed) r = 1) /\
  (forall env, isManager (stateOf txsRevealed) (msg_sender env) = true ->
               requestAggregateDecryption env 2 (stateOf txsRevealed) =
               Reverted NotFound).
Proof.
  apply (only_service_type_1_is_served acceptNonEmpty).
  - exists adminEnv, txsRevealed. reflexivity.
  - lia.
Defined.

(** X11.  The aggregate of service type 1 is written as a whole and within
    range: in reachable storage it is either absent, all four fields being
    the null handle, or all four fields are initialised handles whose
    plaintexts lie in [0, 2^32). *)
Theorem aggregate_is_absent_or_complete checkSignatures s :
  reachable checkSignatures s ->
  aggregateAt s 1 = zeroAggregate \/
  (handle_ok (encryptedTotalRating (aggregateAt s 1)) /\
   handle_ok (encryptedResponseAvg (aggregateAt s 1)) /\
   handle_ok (encryptedFeedbackCount (aggregateAt s 1)) /\
   handle_ok (encryptedImprovementScore (aggregateAt s 1))).
Proof.
  intros Hr.
  destruct (reachable_aggregate_cases checkSignatures s Hr) as [[_ H] | H]; auto.
Qed.

Lemma aggregate_is_absent_or_complete_witness :
  aggregateAt (stateOf txsUpdated3) 1 = zeroAggregate \/
  (handle_ok (encryptedTotalRating (aggregateAt (stateOf txsUpdated3) 1)) /\
   handle_ok (encryptedResponseAvg (aggregateAt (stateOf txsUpdated3) 1)) /\
   handle_ok (encryptedFeedbackCount (aggregateAt (stateOf txsUpdated3) 1)) /\
   handle_ok (encryptedImprovementScore (aggregateAt (stateOf txsUpdated3) 1))).
Proof.
  apply (aggregate_is_absent_or_complete acceptNonEmpty).
  exists adminEnv, txsUpdated3. reflexivity.
Defined.

(** X12.  What the response-average update computes: when nothing
    overflows the 32-bit width, the stored average after an update is the
    previous stored average plus the new response time divided by the new
    count; in particular it never decreases. *)
Theorem responseAvg_update_adds_quotient checkSignatures env fid s :
  reachable checkSignatures s ->
  let a := aggregateAt s 1 in
  let avg := FHE.plain (encryptedResponseAvg a) in
  let n := FHE.plain (encryptedFeedbackCount a) in
  let t := FHE.plain (encryptedResponseTime (feedbackAt s fid)) in
  let a' := aggregateAt (stateAfter (updateServiceAggregates env fid) s) 1 in
  0 <= t ->
  n + 1 < uint32_modulus ->
  avg * (n + 1) + t < uint32_modulus ->
  FHE.plain (encryptedResponseAvg a') = avg + t / (n + 1) /\
  avg <= FHE.plain (encryptedResponseAvg a').
Proof.
  intros Hr. cbv zeta.
  destruct (reachable_initAggregate checkSignatures s Hr)
    as ((_ & Havg & Hn & _) & (_ & Eavg & En & _)).
  rewrite stateAfter_update, aggregateAt_1_updatedState.
  unfold updatedAggregate. cbn [encryptedResponseAvg].
  set (f := feedbackAt s fid). set (a := aggregateAt s 1) in *.
  intros Ht Hn1 Hsum.
  set (newCount := FHE.add (encryptedFeedbackCount (initAggregate a))
                     (FHE.asEuint32 1)).
  assert (Hnew : FHE.plain newCount = FHE.plain (encryptedFeedbackCount a) + 1).
  { unfold newCount. rewrite plain_add, En.
    rewrite plain_asEuint32 by (apply in_uint32_small; lia).
    apply wrap32_small. unfold in_uint32 in *. lia. }
  unfold in_uint32 in Havg, Hn.
  rewrite plain_div by (rewrite Hnew; lia).
  rewrite plain_add, plain_mul, Hnew, Eavg.
  rewrite (wrap32_small (_ * _)) by (unfold in_uint32; nia).
  rewrite (wrap32_small (_ + _)) by (unfold in_uint32; nia).
  rewrite Z.div_add_l by lia.
  assert (0 <= FHE.plain (encryptedResponseTime f) /
               (FHE.plain (encryptedFeedbackCount a) + 1)) by (apply Z.div_pos; lia).
  assert (FHE.plain (encryptedResponseTime f) /
            (FHE.plain (encryptedFeedbackCount a) + 1) <=
          FHE.plain (encryptedResponseTime f))
    by (apply Z.div_le_upper_bound; nia).
  rewrite wrap32_small by (unfold in_uint32; nia).
  split; lia.
Qed.

Lemma responseAvg_update_adds_quotient_witness :
  let s := stateOf txsUpdated2 in
  FHE.plain (encryptedResponseAvg
               (aggregateAt (stateAfter (updateServiceAggregates citizenEnv 3) s) 1)) =
    25 + 20 / (2 + 1) /\
  25 <= FHE.plain (encryptedResponseAvg
               (aggregateAt (stateAfter (updateServiceAggregates citizenEnv 3) s) 1)).
Proof.
  apply (responseAvg_update_adds_quotient acceptNonEmpty citizenEnv 3
           (stateOf txsUpdated2)).
  - exists adminEnv, txsUpdated2. reflexivity.
  - vm_compute. congruence.
  - vm_compute. reflexivity.
  - vm_compute. reflexivity.
Defined.

Lemma plain_total_updatedAggregate checkSignatures s fid :
  reachable checkSignatures s ->
  FHE.plain (encryptedTotalRating (aggregateAt (updatedState fid s) 1)) =
  wrap32 (FHE.plain (encryptedTotalRating (aggregateAt s 1)) +
          FHE.plain (encryptedRating (feedbackAt s fid))).
Proof.
  intros Hr.
  destruct (reachable_initAggregate checkSignatures s Hr) as (_ & (Et & _)).
  rewrite aggregateAt_1_updatedState. unfold updatedAggregate.
  cbn [encryptedTotalRating]. now rewrite plain_add, Et.
Qed.

Lemma plain_count_updatedAggregate s fid :
  FHE.plain (encryptedFeedbackCount (aggregateAt (updatedState fid s) 1)) =
  wrap32 (FHE.plain (encryptedFeedbackCount (aggregateAt s 1)) + 1).
Proof.
  rewrite aggregateAt_1_updatedState. unfold updatedAggregate.
  cbn [encryptedFeedbackCount]. rewrite plain_add, plain_count_initAggregate.
  now rewrite plain_asEuint32 by (apply in_uint32_small; lia).
Qed.

(** X13.  A feedback id that was never submitted is aggregated all the
    same: [updateServiceAggregates] does not check that the record exists, so
    the call succeeds, the count grows by one and the total rating keeps its
    value. *)
Theorem updateServiceAggregates_accepts_missing_feedback
    checkSignatures env fid s :
  reachable checkSignatures s ->
  feedbacks s !! fid = None ->
  let a := aggregateAt s 1 in
  let a' := aggregateAt (stateAfter (updateServiceAggregates env fid) s) 1 in
  (exists s', updateServiceAggregates env fid s = Success tt s') /\
  FHE.plain (encryptedFeedbackCount a') =
    wrap32 (FHE.plain (encryptedFeedbackCount a) + 1) /\
  FHE.plain (encryptedTotalRating a') = FHE.plain (encryptedTotalRating a).
Proof.
  intros Hr Hnone. cbv zeta.
  rewrite updateServiceAggregates_eq, stateAfter_update.
  split; [eexists; reflexivity|]. split; [apply plain_count_updatedAggregate|].
  rewrite (plain_total_updatedAggregate checkSignatures s fid Hr).
  unfold feedbackAt. rewrite Hnone. cbn [default zeroFeedback encryptedRating FHE.plain].
  rewrite Z.add_0_r. apply wrap32_small.
  apply (reachable_initAggregate checkSignatures s Hr).
Qed.

Lemma updateServiceAggregates_accepts_missing_feedback_witness :
  let s := stateOf txsUpdated3 in
  let a := aggregateAt s 1 in
  let a' := aggregateAt (stateAfter (updateServiceAggregates outsiderEnv 99) s) 1 in
  (exists s', updateServiceAggregates outsiderEnv 99 s = Success tt s') /\
  FHE.plain (encryptedFeedbackCount a') =
    wrap32 (FHE.plain (encryptedFeedbackCount a) + 1) /\
  FHE.plain (encryptedTotalRating a') = FHE.plain (encryptedTotalRating a).
Proof.
  apply (updateServiceAggregates_accepts_missing_feedback acceptNonEmpty
           outsiderEnv 99 (stateOf txsUpdated3)).
  - exists adminEnv, txsUpdated3. reflexivity.
  - vm_compute. reflexivity.
Defined.

Lemma sum_ratings_updatedState fid s fids :
  sum_ratings (updatedState fid s) fids = sum_ratings s fids.
Proof. reflexivity. Qed.

(** X14.  Updates add up: after a batch of [updateServiceAggregates] calls
    on reachable storage the count has grown by the length of the batch and
    the total rating by the sum of the ratings of the records named, both in
    32-bit arithmetic; ids may repeat and their order does not matter. *)
Theorem batch_of_updates_adds_up checkSignatures env s fids :
  reachable checkSignatures s ->
  let s' := run checkSignatures s
              (map (fun fid => (env, UpdateServiceAggregates fid)) fids) in
  FHE.plain (encryptedFeedbackCount (aggregateAt s' 1)) =
    wrap32 (FHE.plain (encryptedFeedbackCount (aggregateAt s 1)) +
            Z.of_nat (length fids)) /\
  FHE.plain (encryptedTotalRating (aggregateAt s' 1)) =
    wrap32 (FHE.plain (encryptedTotalRating (aggregateAt s 1)) +
            sum_ratings s fids).
Proof.
  cbv zeta. revert s. induction fids as [|fid fids IH]; intros s Hr.
  - destruct (reachable_initAggregate checkSignatures s Hr)
      as ((Ht & _ & Hc & _) & _).
    cbn [map length sum_ratings fold_right]. unfold run. cbn [fold_left].
    rewrite !Z.add_0_r, !wrap32_small by assumption. split; reflexivity.
  - cbn [map]. rewrite run_cons, transact_update.
    assert (Hr' : reachable checkSignatures (updatedState fid s)).
    { rewrite <- (transact_update checkSignatures s env fid).
      now apply reachable_transact. }
    destruct (IH _ Hr') as [Hc Ht]. rewrite Hc, Ht.
    rewrite plain_count_updatedAggregate.
    rewrite (plain_total_updatedAggregate checkSignatures s fid Hr).
    rewrite sum_ratings_updatedState, !wrap32_idemp_add_l.
    change (sum_ratings s (fid :: fids))
      with (FHE.plain (encryptedRating (feedbackAt s fid)) + sum_ratings s fids).
    cbn [length]. split; f_equal; lia.
Qed.

Lemma batch_of_updates_adds_up_witness :
  let s := stateOf txsSubmitted in
  let s' := run acceptNonEmpty s
              (map (fun fid => (citizenEnv, UpdateServiceAggregates fid)) [3; 1; 3]) in
  FHE.plain (encryptedFeedbackCount (aggregateAt s' 1)) =
    wrap32 (FHE.plain (encryptedFeedbackCount (aggregateAt s 1)) +
            Z.of_nat (length [3; 1; 3])) /\
  FHE.plain (encryptedTotalRating (aggregateAt s' 1)) =
    wrap32 (FHE.plain (encryptedTotalRating (aggregateAt s 1)) +
            sum_ratings s [3; 1; 3]).
Proof.
  apply (batch_of_updates_adds_up acceptNonEmpty citizenEnv
           (stateOf txsSubmitted) [3; 1; 3]).
  exists adminEnv, txsSubmitted. reflexivity.
Defined.

Lemma calculateImprovementScore_bounds rating responseTime currentScore :
  0 <= FHE.plain rating <= 5 ->
  0 <= FHE.plain responseTime <= 1009 ->
  0 <= FHE.plain currentScore <= 100 ->
  0 <= FHE.plain (calculateImprovementScore rating responseTime currentScore) <= 100.
Proof.
  intros Hr Ht Hc. unfold calculateImprovementScore.
  assert (H20 : FHE.plain (FHE.asEuint32 20) = 20)
    by (apply plain_asEuint32, in_uint32_small; lia).
  assert (H100 : FHE.plain (FHE.asEuint32 100) = 100)
    by (apply plain_asEuint32, in_uint32_small; lia).
  assert (H10 : FHE.plain (FHE.asEuint32 10) = 10)
    by (apply plain_asEuint32, in_uint32_small; lia).
  assert (H2 : FHE.plain (FHE.asEuint32 2) = 2)
    by (apply plain_asEuint32, in_uint32_small; lia).
  assert (Hq : 0 <= FHE.plain responseTime / 10 <= 100).
  { split; [apply Z.div_pos; lia|].
    assert (FHE.plain responseTime / 10 < 101)
      by (apply Z.div_lt_upper_bound; lia).
    lia. }
  set (ratingImpact := FHE.mul rating (FHE.asEuint32 20)).
  assert (E1 : FHE.plain ratingImpact = FHE.plain rating * 20).
  { unfold ratingImpact. rewrite plain_mul, H20.
    apply wrap32_small, in_uint32_small. lia. }
  set (quot := FHE.div responseTime (FHE.asEuint32 10)).
  assert (E2 : FHE.plain quot = FHE.plain responseTime / 10).
  { unfold quot. rewrite plain_div by (rewrite H10; lia). rewrite H10.
    apply wrap32_small, in_uint32_small. lia. }
  set (responseImpact := FHE.sub (FHE.asEuint32 100) quot).
  assert (E3 : FHE.plain responseImpact = 100 - FHE.plain responseTime / 10).
  { unfold responseImpact. rewrite plain_sub, H100, E2.
    apply wrap32_small, in_uint32_small. lia. }
  set (newContribution :=
         FHE.div (FHE.add ratingImpact responseImpact) (FHE.asEuint32 2)).
  assert (E4 : 0 <= FHE.plain newContribution <= 100).
  { unfold newContribution. rewrite plain_div by (rewrite H2; lia).
    rewrite H2, plain_add, E1, E3.
    rewrite (wrap32_small (_ + _)) by (apply in_uint32_small; lia).
    assert (0 <= (FHE.plain rating * 20 + (100 - FHE.plain responseTime / 10)) / 2
            <= 100).
    { split; [apply Z.div_pos; lia|]. apply Z.div_le_upper_bound; lia. }
    rewrite wrap32_small by (apply in_uint32_small; lia). assumption. }
  rewrite plain_div by (rewrite H2; lia).
  rewrite H2, plain_add.
  rewrite (wrap32_small (_ + _)) by (apply in_uint32_small; lia).
  assert (0 <= (FHE.plain currentScore + FHE.plain newContribution) / 2 <= 100).
  { split; [apply Z.div_pos; lia|]. apply Z.div_le_upper_bound; lia. }
  rewrite wrap32_small by (apply in_uint32_small; lia). assumption.
Qed.

(** X15.  The improvement score stays on its scale: if the stored score is
    at most 100 and the feedback aggregated has a rating of at most 5 and a
    response time of at most 1009, the score after the update is again
    between 0 and 100. *)
Theorem improvement_score_stays_within_100 checkSignatures env fid s :
  reachable checkSignatures s ->
  let f := feedbackAt s fid in
  let a := aggregateAt s 1 in
  let a' := aggregateAt (stateAfter (updateServiceAggregates env fid) s) 1 in
  0 <= FHE.plain (encryptedRating f) <= 5 ->
  0 <= FHE.plain (encryptedResponseTime f) <= 1009 ->
  FHE.plain (encryptedImprovementScore a) <= 100 ->
  0 <= FHE.plain (encryptedImprovementScore a') <= 100.
Proof.
  intros Hr. cbv zeta. intros Hrating Htime Hscore.
  destruct (reachable_initAggregate checkSignatures s Hr)
    as ((_ & _ & _ & Hi) & (_ & _ & _ & Ei)).
  rewrite stateAfter_update, aggregateAt_1_updatedState.
  unfold updatedAggregate. cbn [encryptedImprovementScore].
  apply calculateImprovementScore_bounds; try assumption.
  rewrite Ei. unfold in_uint32 in Hi. lia.
Qed.

Lemma improvement_score_stays_within_100_witness :
  let s := stateOf txsUpdated2 in
  0 <= FHE.plain (encryptedImprovementScore
                    (aggregateAt (stateAfter (updateServiceAggregates citizenEnv 3) s) 1))
    <= 100.
Proof.
  apply (improvement_score_stays_within_100 acceptNonEmpty citizenEnv 3
           (stateOf txsUpdated2)).
  - exists adminEnv, txsUpdated2. reflexivity.
  - vm_compute. split; congruence.
  - vm_compute. split; congruence.
  - vm_compute. congruence.
Defined.

(** ** The reveal protocol, continued *)

Lemma effect_binding s s' r k :
  reveal_invariant s -> effect s s' ->
  requestToServiceType s !! r = Some k ->
  requestToServiceType s' !! r = Some k.
Proof.
  intros (_ & Hdom & _) [| m | env a b c d _ | fid | k' _ _
                         | r' t a c i _ _ _ _ _ _ _] Hr; try exact Hr.
  change (requestToServiceType (requestedState k' s))
    with (<[counterRequest s := k']> (requestToServiceType s)).
  rewrite lookup_insert_ne; [exact Hr|].
  intros <-. assert (is_Some (requestToServiceType s !! counterRequest s)) as Hs
    by eauto.
  apply Hdom in Hs. lia.
Qed.

(** X16.  Request ids are minted in sequence and bindings are permanent:
    in reachable storage the bound request ids are exactly
    [0 .. counterRequest - 1], and a binding, once made, is found unchanged
    after any further transactions; the reveal it served does not consume
    it. *)
Theorem request_bindings_are_permanent checkSignatures s :
  reachable checkSignatures s ->
  (forall r, is_Some (requestToServiceType s !! r) <-> 0 <= r < counterRequest s) /\
  (forall txs r k,
     requestToServiceType s !! r = Some k ->
     requestToServiceType (run checkSignatures s txs) !! r = Some k).
Proof.
  intros Hr. split.
  - apply (reachable_reveal_invariant checkSignatures s Hr).
  - intros txs r k Hk. revert Hr Hk.
    apply (run_preserves_reachable checkSignatures
             (fun s => requestToServiceType s !! r = Some k)).
    intros s0 s' Hr0 Hk0 He. apply (effect_binding s0); [|assumption..].
    now apply (reachable_reveal_invariant checkSignatures).
Qed.

Lemma request_bindings_are_permanent_witness :
  (forall r, is_Some (requestToServiceType (stateOf txsRequested) !! r) <->
             0 <= r < counterRequest (stateOf txsRequested)) /\
  (forall txs r k,
     requestToServiceType (stateOf txsRequested) !! r = Some k ->
     requestToServiceType (run acceptNonEmpty (stateOf txsRequested) txs) !! r =
       Some k).
Proof.
  apply (request_bindings_are_permanent acceptNonEmpty).
  exists adminEnv, txsRequested. reflexivity.
Defined.

(** X17.  A bundle that cannot be used is refused without effect: for a
    pending request and a proof that verifies, [decryptAggregateData]
    reverts on a bundle shorter than 128 bytes (decoding error) and on a
    bundle whose count is zero (division by zero); the storage is unchanged
    in both cases, so the request stays pending. *)
Theorem decryptAggregateData_refuses_unusable_bundle
    checkSignatures env requestId cleartexts proof s :
  serviceTypeOfRequest s requestId <> 0 ->
  isRevealed (decryptedAt s (serviceTypeOfRequest s requestId)) = false ->
  checkSignatures requestId cleartexts proof = true ->
  let outcome :=
    decryptAggregateData checkSignatures env requestId cleartexts proof s in
  ((length cleartexts < 128)%nat -> outcome = Reverted AbiDecodeError) /\
  (forall t a i, abi_decode_uint32x4 cleartexts = Some (t, a, 0, i) ->
                 outcome = Reverted PanicDivByZero) /\
  ((length cleartexts < 128)%nat \/
   (exists t a i, abi_decode_uint32x4 cleartexts = Some (t, a, 0, i)) ->
   stateAfter (decryptAggregateData checkSignatures env requestId cleartexts proof) s
     = s).
Proof.
  intros Hk Hrev Hsig. cbv zeta. unfold stateAfter.
  rewrite decryptAggregateData_eq. cbv zeta.
  apply Z.eqb_neq in Hk. rewrite Hk, Hrev, Hsig. cbv [negb].
  assert (Hshort : (length cleartexts < 128)%nat ->
                   abi_decode_uint32x4 cleartexts = None).
  { intros Hlen. unfold abi_decode_uint32x4.
    apply Nat.ltb_lt in Hlen. now rewrite Hlen. }
  split; [|split].
  - intros Hlen. now rewrite (Hshort Hlen).
  - intros t a i Hd. now rewrite Hd.
  - intros [Hlen | (t & a & i & Hd)].
    + now rewrite (Hshort Hlen).
    + now rewrite Hd.
Qed.

Lemma decryptAggregateData_refuses_unusable_bundle_witness :
  let s := stateOf txsRequested in
  let zeroCount := abi_encode_uint32x4 12 20 0 76 in
  decryptAggregateData acceptNonEmpty outsiderEnv 0 zeroCount goodProof s =
    Reverted PanicDivByZero /\
  decryptAggregateData acceptNonEmpty outsiderEnv 0 (take 100 bundle) goodProof s =
    Reverted AbiDecodeError.
Proof.
  cbv zeta. split.
  - destruct (decryptAggregateData_refuses_unusable_bundle acceptNonEmpty
                outsiderEnv 0 (abi_encode_uint32x4 12 20 0 76) goodProof
                (stateOf txsRequested)) as (_ & Hzero & _);
      [vm_compute; congruence | vm_compute; reflexivity | reflexivity |].
    apply (Hzero 12 20 76). vm_compute. reflexivity.
  - destruct (decryptAggregateData_refuses_unusable_bundle acceptNonEmpty
                outsiderEnv 0 (take 100 bundle) goodProof
                (stateOf txsRequested)) as (Hshort & _);
      [vm_compute; congruence | vm_compute; reflexivity | reflexivity |].
    apply Hshort. vm_compute. lia.
Defined.

(** X18.  A snapshot is empty until revealed and sound once revealed: in
    reachable storage [getDecryptedAggregate] of a service type either
    returns zeros with the flag unset, or the service type is 1, the flag is
    set, the four values lie in [0, 2^32) and the count is not zero. *)
Theorem getDecryptedAggregate_empty_or_sound checkSignatures s k :
  reachable checkSignatures s ->
  getDecryptedAggregate s k = (0, 0, 0, 0, false) \/
  (exists avg resp cnt score,
     getDecryptedAggregate s k = (avg, resp, cnt, score, true) /\
     k = 1 /\ in_uint32 avg /\ in_uint32 resp /\ in_uint32 cnt /\ cnt <> 0 /\
     in_uint32 score).
Proof.
  intros Hr.
  destruct (reachable_reveal_invariant checkSignatures s Hr)
    as (_ & _ & _ & Hsnap & _).
  unfold getDecryptedAggregate, decryptedAt.
  destruct (decryptedAggregates s !! k) as [d|] eqn:Hd; [|now left].
  right. destruct (Hsnap k d Hd) as (Hk & Hrev & H1 & H2 & H3 & H4 & H5).
  exists (avgRating d), (avgResponseTime d), (dFeedbackCount d),
    (improvementScore d).
  simpl. rewrite Hrev. repeat split; assumption || apply H1 || apply H2
    || apply H3 || apply H5.
Qed.

Lemma getDecryptedAggregate_empty_or_sound_witness :
  getDecryptedAggregate (stateOf txsRevealed) 1 = (0, 0, 0, 0, false) \/
  (exists avg resp cnt score,
     getDecryptedAggregate (stateOf txsRevealed) 1 = (avg, resp, cnt, score, true) /\
     1 = 1 /\ in_uint32 avg /\ in_uint32 resp /\ in_uint32 cnt /\ cnt <> 0 /\
     in_uint32 score).
Proof.
  apply (getDecryptedAggregate_empty_or_sound acceptNonEmpty).
  exists adminEnv, txsRevealed. reflexivity.
Defined.

(** X19.  A reveal is announced exactly once: in reachable storage the log
    holds one [AggregateDecrypted] event for a service type whose snapshot is
    revealed and none for a service type whose snapshot is not. *)
Theorem reveal_is_announced_once checkSignatures s k :
  reachable checkSignatures s ->
  length (List.filter (isDecryptedEvent k) (events s)) =
  if isRevealed (decryptedAt s k) then 1%nat else 0%nat.
Proof.
  intros Hr. apply (reachable_reveal_invariant checkSignatures s Hr).
Qed.

Lemma reveal_is_announced_once_witness :
  length (List.filter (isDecryptedEvent 1)
            (events (run acceptNonEmpty (stateOf txsRevealed) txsLater))) =
  if isRevealed (decryptedAt (run acceptNonEmpty (stateOf txsRevealed) txsLater) 1)
  then 1%nat else 0%nat.
Proof.
  apply (reveal_is_announced_once acceptNonEmpty).
  exists adminEnv, (txsRevealed ++ txsLater).
  unfold stateOf, run. now rewrite fold_left_app.
Defined.

Lemma aggregateAt_requestedState k s k' :
  aggregateAt (requestedState k s) k' = aggregateAt s k'.
Proof. reflexivity. Qed.

Lemma decryptedAt_requestedState k s k' :
  decryptedAt (requestedState k s) k' = decryptedAt s k'.
Proof. reflexivity. Qed.

Lemma isManager_requestedState k s a :
  isManager (requestedState k s) a = isManager s a.
Proof. reflexivity. Qed.

(** X20.  A pending request does not lock the service type: after a
    successful [requestAggregateDecryption], a further request for the same
    service type by any manager succeeds as well and mints the next id;
    both ids are then bound to the service type. *)
Theorem requestAggregateDecryption_can_be_repeated env env' serviceType s s1 :
  requestAggregateDecryption env serviceType s = Success tt s1 ->
  isManager s (msg_sender env') = true ->
  exists s2,
    requestAggregateDecryption env' serviceType s1 = Success tt s2 /\
    serviceTypeOfRequest s2 (counterRequest s) = serviceType /\
    serviceTypeOfRequest s2 (counterRequest s + 1) = serviceType /\
    counterRequest s2 = counterRequest s + 2.
Proof.
  rewrite requestAggregateDecryption_eq.
  destruct (negb (isManager s (msg_sender env))); [discriminate|].
  destruct (FHE.isInitialized (encryptedFeedbackCount (aggregateAt s serviceType)))
    eqn:Hi; [|discriminate].
  destruct (isRevealed (decryptedAt s serviceType)) eqn:Hrev; [discriminate|].
  cbv [negb]. intros [= <-] Hm.
  rewrite requestAggregateDecryption_eq.
  rewrite isManager_requestedState, Hm, aggregateAt_requestedState, Hi,
    decryptedAt_requestedState, Hrev.
  cbv [negb]. eexists. split; [reflexivity|].
  change (counterRequest (requestedState serviceType s))
    with (counterRequest s + 1).
  rewrite !serviceTypeOfRequest_requestedState.
  change (counterRequest (requestedState serviceType s))
    with (counterRequest s + 1).
  repeat case_decide; try lia. repeat split.
  change (counterRequest (requestedState serviceType (requestedState serviceType s)))
    with (counterRequest s + 1 + 1). lia.
Qed.

Lemma requestAggregateDecryption_can_be_repeated_witness :
  let s := stateOf txsUpdated3 in
  exists s2,
    requestAggregateDecryption managerEnv 1
      (stateAfter (requestAggregateDecryption managerEnv 1) s) = Success tt s2 /\
    serviceTypeOfRequest s2 (counterRequest s) = 1 /\
    serviceTypeOfRequest s2 (counterRequest s + 1) = 1 /\
    counterRequest s2 = counterRequest s + 2.
Proof.
  apply (requestAggregateDecryption_can_be_repeated managerEnv managerEnv 1
           (stateOf txsUpdated3)).
  - vm_compute. reflexivity.
  - vm_compute. reflexivity.
Defined.

(** ** ABI bundles *)

Lemma byte_of_Z_value z : Z.of_N (Byte.to_N (byte_of_Z z)) = z mod 256.
Proof.
  unfold byte_of_Z.
  assert (Hz : 0 <= z mod 256 < 256) by (apply Z.mod_pos_bound; lia).
  destruct (Byte.of_N (Z.to_N (z mod 256))) as [b|] eqn:Hb.
  - apply Byte.to_of_N in Hb. simpl. rewrite Hb. apply Z2N.id. lia.
  - apply Byte.of_N_None_iff in Hb. lia.
Qed.

Lemma be_to_Z_encode v : in_uint32 v -> be_to_Z (abi_encode_uint32 v) = v.
Proof.
  unfold in_uint32, uint32_modulus. intros Hv.
  unfold abi_encode_uint32, be_to_Z. cbn [repeat app fold_left].
  rewrite !byte_of_Z_value.
  change (Z.of_N (Byte.to_N "000")) with 0.
  pose proof (Z.div_mod v 256 ltac:(lia)) as H0.
  pose proof (Z.div_mod (v / 256) 256 ltac:(lia)) as H1.
  pose proof (Z.div_mod (v / 65536) 256 ltac:(lia)) as H2.
  pose proof (Z.div_mod (v / 16777216) 256 ltac:(lia)) as H3.
  assert (E1 : v / 65536 = v / 256 / 256)
    by (rewrite Z.div_div by lia; reflexivity).
  assert (E2 : v / 16777216 = v / 65536 / 256)
    by (rewrite Z.div_div by lia; reflexivity).
  assert (E3 : v / 16777216 / 256 = 0).
  { rewrite Z.div_div by lia. apply Z.div_small. lia. }
  rewrite E3 in H3. rewrite <- E2 in H2. rewrite <- E1 in H1. lia.
Qed.

Lemma abi_word_encode a b c d extra :
  let bs := abi_encode_uint32x4 a b c d ++ extra in
  abi_word bs 0 = be_to_Z (abi_encode_uint32 a) /\
  abi_word bs 1 = be_to_Z (abi_encode_uint32 b) /\
  abi_word bs 2 = be_to_Z (abi_encode_uint32 c) /\
  abi_word bs 3 = be_to_Z (abi_encode_uint32 d).
Proof. cbv zeta. repeat split; reflexivity. Qed.

(** X21.  Decoding inverts encoding and ignores what follows: the bundle
    made of four 32-bit values, each as a 32-byte big-endian word, decodes to
    those four values, also when more bytes follow the fourth word. *)
Theorem abi_decode_inverts_encode a b c d extra :
  in_uint32 a -> in_uint32 b -> in_uint32 c -> in_uint32 d ->
  abi_decode_uint32x4 (abi_encode_uint32x4 a b c d ++ extra) = Some (a, b, c, d).
Proof.
  intros Ha Hb Hc Hd. unfold abi_decode_uint32x4.
  assert (Hlen : (length (abi_encode_uint32x4 a b c d ++ extra) <? 128)%nat = false).
  { apply Nat.ltb_ge. rewrite List.length_app.
    change (length (abi_encode_uint32x4 a b c d)) with 128%nat. lia. }
  rewrite Hlen. cbv zeta.
  destruct (abi_word_encode a b c d extra) as (-> & -> & -> & ->).
  rewrite !be_to_Z_encode by assumption.
  cbn [forallb].
  destruct Ha as [_ Ha], Hb as [_ Hb], Hc as [_ Hc], Hd as [_ Hd].
  apply Z.ltb_lt in Ha, Hb, Hc, Hd. now rewrite Ha, Hb, Hc, Hd.
Qed.

Lemma abi_decode_inverts_encode_witness :
  abi_decode_uint32x4 (abi_encode_uint32x4 12 31 3 4294967295 ++ goodProof) =
  Some (12, 31, 3, 4294967295).
Proof.
  apply abi_decode_inverts_encode; vm_compute; split; congruence.
Defined.

(** ** Analytics *)

Lemma quotient_lt t n q : 0 <= t -> 0 < n -> (t / n < q <-> t < q * n).
Proof.
  intros Ht Hn. pose proof (Z.div_mod t n ltac:(lia)) as Hdm.
  pose proof (Z.mod_pos_bound t n Hn) as Hm. split; intros H; nia.
Qed.

Lemma plain_average total count :
  in_uint32 (FHE.plain total) -> in_uint32 (FHE.plain count) ->
  FHE.plain count <> 0 ->
  FHE.plain (FHE.div total count) = FHE.plain total / FHE.plain count.
Proof.
  intros Ht Hn Hn0. rewrite plain_div by assumption.
  apply wrap32_small, div_in_range; assumption.
Qed.

Lemma plainb_lt a b : FHE.plainb (FHE.lt a b) = (FHE.plain a <? FHE.plain b).
Proof. reflexivity. Qed.

Lemma plain_cmux c a b :
  FHE.plain (FHE.cmux c a b) = if FHE.plainb c then FHE.plain a else FHE.plain b.
Proof. reflexivity. Qed.

(** X22.  [detectServiceDegradation] flags a service exactly when its
    total rating is below three times its count, that is when the integer
    average rating is below 3 (for an aggregate with in-range values and a
    non-zero count). *)
Theorem detectServiceDegradation_threshold s serviceType :
  let a := aggregateAt s serviceType in
  let total := FHE.plain (encryptedTotalRating a) in
  let count := FHE.plain (encryptedFeedbackCount a) in
  in_uint32 total -> in_uint32 count -> count <> 0 ->
  (FHE.plainb (detectServiceDegradation s serviceType) = true <->
   total < 3 * count).
Proof.
  cbv zeta. intros Ht Hn Hn0. unfold detectServiceDegradation. cbv zeta.
  rewrite plainb_lt, plain_average by assumption.
  rewrite plain_asEuint32 by (apply in_uint32_small; lia).
  rewrite Z.ltb_lt. unfold in_uint32 in *. apply quotient_lt; lia.
Qed.

Lemma detectServiceDegradation_threshold_witness :
  FHE.plainb (detectServiceDegradation (stateOf txsUpdated3) 1) = true <->
  12 < 3 * 3.
Proof.
  apply (detectServiceDegradation_threshold (stateOf txsUpdated3) 1);
    vm_compute; try split; congruence.
Defined.

(** X23.  [generateActionRecommendations] returns one of three priorities
    by the integer average rating: 1 below 3, 2 from 3 to below 4, 3 from 4
    up; it returns 1 exactly when [detectServiceDegradation] flags the
    service. *)
Theorem generateActionRecommendations_tiers s serviceType :
  let a := aggregateAt s serviceType in
  let total := FHE.plain (encryptedTotalRating a) in
  let count := FHE.plain (encryptedFeedbackCount a) in
  let priority := FHE.plain (generateActionRecommendations s serviceType) in
  in_uint32 total -> in_uint32 count -> count <> 0 ->
  (total < 3 * count -> priority = 1) /\
  (3 * count <= total < 4 * count -> priority = 2) /\
  (4 * count <= total -> priority = 3) /\
  (priority = 1 <->
   FHE.plainb (detectServiceDegradation s serviceType) = true).
Proof.
  cbv zeta. intros Ht Hn Hn0.
  unfold generateActionRecommendations, detectServiceDegradation. cbv zeta.
  rewrite !plain_cmux, !plainb_lt, plain_average by assumption.
  rewrite !plain_asEuint32 by (apply in_uint32_small; lia).
  unfold in_uint32 in *.
  pose proof (quotient_lt _ (FHE.plain (encryptedFeedbackCount
                                          (aggregateAt s serviceType))) 3
                (proj1 Ht) ltac:(lia)) as H3.
  pose proof (quotient_lt _ (FHE.plain (encryptedFeedbackCount
                                          (aggregateAt s serviceType))) 4
                (proj1 Ht) ltac:(lia)) as H4.
  destruct (Z.ltb_spec (FHE.plain (encryptedTotalRating (aggregateAt s serviceType)) /
                        FHE.plain (encryptedFeedbackCount (aggregateAt s serviceType))) 3);
    destruct (Z.ltb_spec (FHE.plain (encryptedTotalRating (aggregateAt s serviceType)) /
                          FHE.plain (encryptedFeedbackCount (aggregateAt s serviceType))) 4);
    repeat split; intros; try lia; try discriminate.
Qed.

Lemma generateActionRecommendations_tiers_witness :
  FHE.plain (generateActionRecommendations (stateOf txsUpdated3) 1) = 3.
Proof.
  apply (generateActionRecommendations_tiers (stateOf txsUpdated3) 1);
    vm_compute; try split; congruence.
Defined.

Lemma plain_max a b : FHE.plain (FHE.max a b) = Z.max (FHE.plain a) (FHE.plain b).
Proof. reflexivity. Qed.

(** The loop of [identifyPriorityAreas] over any range of service types. *)
Lemma priority_fold_spec s (range : list Z) (acc : FHE.euint32) :
  let step := fun maxPriority i =>
    if FHE.isInitialized (encryptedImprovementScore (aggregateAt s i))
    then FHE.max maxPriority (encryptedImprovementScore (aggregateAt s i))
    else maxPriority in
  let r := FHE.plain (fold_left step range acc) in
  FHE.plain acc <= r /\
  (forall k, k ∈ range ->
     FHE.isInitialized (encryptedImprovementScore (aggregateAt s k)) = true ->
     FHE.plain (encryptedImprovementScore (aggregateAt s k)) <= r) /\
  (r = FHE.plain acc \/
   exists k, k ∈ range /\
     FHE.isInitialized (encryptedImprovementScore (aggregateAt s k)) = true /\
     r = FHE.plain (encryptedImprovementScore (aggregateAt s k))).
Proof.
  cbv zeta. revert acc. induction range as [|i range IH]; intros acc.
  - cbn [fold_left]. split; [lia|]. split; [|now left].
    intros k Hk. now apply elem_of_nil in Hk.
  - cbn [fold_left].
    destruct (FHE.isInitialized (encryptedImprovementScore (aggregateAt s i)))
      eqn:Hi.
    + destruct (IH (FHE.max acc (encryptedImprovementScore (aggregateAt s i))))
        as (Hacc & Hall & Hone).
      rewrite plain_max in Hacc, Hone. split; [lia|]. split.
      * intros k Hk Hkinit. apply elem_of_cons in Hk as [-> | Hk];
          [lia | now apply Hall].
      * destruct Hone as [Hr | (k & Hk & Hkinit & Hr)].
        -- destruct (Z.max_spec (FHE.plain acc)
                       (FHE.plain (encryptedImprovementScore (aggregateAt s i))))
             as [[_ Hm] | [_ Hm]]; rewrite Hm in Hr.
           ++ right. exists i. split; [apply list_elem_of_here | auto].
           ++ now left.
        -- right. exists k. split; [now apply list_elem_of_further | auto].
    + destruct (IH acc) as (Hacc & Hall & Hone). split; [exact Hacc|]. split.
      * intros k Hk Hkinit. apply elem_of_cons in Hk as [-> | Hk];
          [congruence | now apply Hall].
      * destruct Hone as [Hr | (k & Hk & Hkinit & Hr)]; [now left|].
        right. exists k. split; [now apply list_elem_of_further | auto].
Qed.

(** X24.  [identifyPriorityAreas] returns the largest improvement score
    among the initialised aggregates of service types 1 to 5: it is at least
    each of them, it is not negative, and it is zero or the score of one of
    them. *)
Theorem identifyPriorityAreas_is_the_maximum s :
  let r := FHE.plain (identifyPriorityAreas s) in
  (forall k, k ∈ serviceTypeRange ->
     FHE.isInitialized (encryptedImprovementScore (aggregateAt s k)) = true ->
     FHE.plain (encryptedImprovementScore (aggregateAt s k)) <= r) /\
  0 <= r /\
  (r = 0 \/
   exists k, k ∈ serviceTypeRange /\
     FHE.isInitialized (encryptedImprovementScore (aggregateAt s k)) = true /\
     r = FHE.plain (encryptedImprovementScore (aggregateAt s k))).
Proof.
  cbv zeta. unfold identifyPriorityAreas.
  destruct (priority_fold_spec s serviceTypeRange (FHE.asEuint32 0))
    as (Hacc & Hall & Hone).
  rewrite plain_asEuint32 in Hacc, Hone by (apply in_uint32_small; lia).
  split; [exact Hall|]. split; [exact Hacc | exact Hone].
Qed.

Lemma identifyPriorityAreas_is_the_maximum_witness :
  FHE.plain (encryptedImprovementScore (aggregateAt (stateOf txsUpdated3) 1)) <=
  FHE.plain (identifyPriorityAreas (stateOf txsUpdated3)).
Proof.
  apply (identifyPriorityAreas_is_the_maximum (stateOf txsUpdated3)).
  - vm_compute. apply list_elem_of_here.
  - vm_compute. reflexivity.
Defined.

Lemma reachable_other_aggregates checkSignatures s k :
  reachable checkSignatures s -> k <> 1 -> aggregateAt s k = zeroAggregate.
Proof.
  intros Hr Hk.
  destruct (reachable_aggregate_invariant checkSignatures s Hr) as [Hother _].
  unfold aggregateAt. now rewrite (Hother k Hk).
Qed.

(** X25.  With the constant service type of [updateServiceAggregates], the
    cross-service indicators reduce to service type 1: in reachable storage
    [identifyPriorityAreas] and [calculatePublicTrustIndex] both decrypt to
    the improvement score of service type 1, and to 0 when nothing was
    aggregated; the trust index never divides by zero. *)
Theorem cross_service_indicators_reduce_to_type_1 checkSignatures s :
  reachable checkSignatures s ->
  FHE.plain (identifyPriorityAreas s) =
    FHE.plain (encryptedImprovementScore (aggregateAt s 1)) /\
  FHE.plain (calculatePublicTrustIndex s) =
    FHE.plain (encryptedImprovementScore (aggregateAt s 1)).
Proof.
  intros Hr.
  unfold identifyPriorityAreas, calculatePublicTrustIndex, serviceTypeRange.
  cbn [fold_left].
  rewrite !(reachable_other_aggregates checkSignatures s 2 Hr) by lia.
  rewrite !(reachable_other_aggregates checkSignatures s 3 Hr) by lia.
  rewrite !(reachable_other_aggregates checkSignatures s 4 Hr) by lia.
  rewrite !(reachable_other_aggregates checkSignatures s 5 Hr) by lia.
  cbn [zeroAggregate encryptedImprovementScore FHE.isInitialized].
  destruct (reachable_aggregate_cases checkSignatures s Hr)
    as [[_ ->] | (_ & _ & _ & (v & Hv & Hrange))].
  - split; reflexivity.
  - rewrite Hv. cbn [FHE.isInitialized]. unfold in_uint32 in Hrange. split.
    + rewrite plain_max, plain_asEuint32 by (apply in_uint32_small; lia).
      change (FHE.plain (Some v)) with v. lia.
    + change (0 <? 0 + 1) with true. cbv iota.
      rewrite plain_div
        by (rewrite plain_asEuint32 by (apply in_uint32_small; lia); lia).
      rewrite plain_add, !plain_asEuint32 by (apply in_uint32_small; lia).
      change (FHE.plain (Some v)) with v.
      rewrite Z.add_0_l, (wrap32_small v) by assumption.
      rewrite Z.div_1_r. now apply wrap32_small.
Qed.

Lemma cross_service_indicators_reduce_to_type_1_witness :
  FHE.plain (identifyPriorityAreas (stateOf txsUpdated3)) =
    FHE.plain (encryptedImprovementScore (aggregateAt (stateOf txsUpdated3) 1)) /\
  FHE.plain (calculatePublicTrustIndex (stateOf txsUpdated3)) =
    FHE.plain (encryptedImprovementScore (aggregateAt (stateOf txsUpdated3) 1)).
Proof.
  apply (cross_service_indicators_reduce_to_type_1 acceptNonEmpty).
  exists adminEnv, txsUpdated3. reflexivity.
Defined.

(** X26.  [measureCitizenSatisfaction] is the integer average rating of
    service type 1: in reachable storage whose aggregate has a non-zero
    count it decrypts to the total rating divided by the count. *)
Theorem measureCitizenSatisfaction_is_the_average checkSignatures s :
  reachable checkSignatures s ->
  let a := aggregateAt s 1 in
  FHE.plain (encryptedFeedbackCount a) <> 0 ->
  FHE.plain (measureCitizenSatisfaction s) =
    FHE.plain (encryptedTotalRating a) / FHE.plain (encryptedFeedbackCount a).
Proof.
  intros Hr. cbv zeta. intros Hn0.
  unfold measureCitizenSatisfaction, serviceTypeRange. cbn [fold_left].
  rewrite !(reachable_other_aggregates checkSignatures s 2 Hr) by lia.
  rewrite !(reachable_other_aggregates checkSignatures s 3 Hr) by lia.
  rewrite !(reachable_other_aggregates checkSignatures s 4 Hr) by lia.
  rewrite !(reachable_other_aggregates checkSignatures s 5 Hr) by lia.
  cbn [zeroAggregate encryptedFeedbackCount FHE.isInitialized].
  destruct (reachable_aggregate_cases checkSignatures s Hr)
    as [[_ Hz] | (Ht & _ & Hc & _)].
  - rewrite Hz in Hn0. now contradiction Hn0.
  - rewrite (handle_ok_initialized _ Hc).
    apply handle_ok_plain in Ht, Hc.
    set (total := encryptedTotalRating (aggregateAt s 1)) in *.
    set (count := encryptedFeedbackCount (aggregateAt s 1)) in *.
    assert (Hq : in_uint32 (FHE.plain total / FHE.plain count))
      by (apply div_in_range; assumption).
    assert (Hprod : in_uint32 (FHE.plain total / FHE.plain count * FHE.plain count)).
    { unfold in_uint32 in *.
      pose proof (Z.mul_div_le (FHE.plain total) (FHE.plain count) ltac:(lia)).
      nia. }
    assert (Hsum : FHE.plain (FHE.add (FHE.asEuint32 0)
                                (FHE.mul (FHE.div total count) count)) =
                   FHE.plain total / FHE.plain count * FHE.plain count).
    { rewrite plain_add, plain_mul, plain_average by assumption.
      rewrite plain_asEuint32 by (apply in_uint32_small; lia).
      rewrite Z.add_0_l, (wrap32_small _ Hprod). now apply wrap32_small. }
    assert (Hcount : FHE.plain (FHE.add (FHE.asEuint32 0) count) = FHE.plain count).
    { rewrite plain_add, plain_asEuint32 by (apply in_uint32_small; lia).
      rewrite Z.add_0_l. now apply wrap32_small. }
    rewrite plain_div by (rewrite Hcount; assumption).
    rewrite Hsum, Hcount, Z.div_mul by assumption.
    now apply wrap32_small.
Qed.

Lemma measureCitizenSatisfaction_is_the_average_witness :
  FHE.plain (measureCitizenSatisfaction (stateOf txsUpdated3)) =
  FHE.plain (encryptedTotalRating (aggregateAt (stateOf txsUpdated3) 1)) /
  FHE.plain (encryptedFeedbackCount (aggregateAt (stateOf txsUpdated3) 1)).
Proof.
  apply (measureCitizenSatisfaction_is_the_average acceptNonEmpty).
  - exists adminEnv, txsUpdated3. reflexivity.
  - vm_compute. congruence.
Defined.

(** X27.  [trackImprovementProgress] has no negative results: for a score
    of at least the baseline 70 it returns the score minus 70, and for a
    score below 70 the subtraction wraps around to the score plus
    [2^32 - 70]. *)
Theorem trackImprovementProgress_wraps_below_baseline s serviceType :
  let score :=
    FHE.plain (encryptedImprovementScore (aggregateAt s serviceType)) in
  let progress := FHE.plain (trackImprovementProgress s serviceType) in
  in_uint32 score ->
  (70 <= score -> progress = score - 70) /\
  (score < 70 -> progress = score + (uint32_modulus - 70)).
Proof.
  cbv zeta. unfold trackImprovementProgress, in_uint32. cbv zeta. intros Hs.
  rewrite plain_sub, plain_asEuint32 by (apply in_uint32_small; lia).
  unfold wrap32, uint32_modulus in *. split; intros H.
  - apply Z.mod_small. lia.
  - symmetry. apply Z.mod_unique with (-1); lia.
Qed.

Lemma trackImprovementProgress_wraps_below_baseline_witness :
  FHE.plain (trackImprovementProgress (stateOf txsUpdated1) 1) =
  49 + (uint32_modulus - 70).
Proof.
  apply (trackImprovementProgress_wraps_below_baseline (stateOf txsUpdated1) 1);
    vm_compute; try split; congruence.
Defined.

(** X28.  [calculateServiceEfficiency] stays on a 0 to 200 scale for
    data on the rating and response-time scales: with an integer average
    rating of at most 5 and a stored response average of at most 1009 it
    decrypts to 20 points per rating point plus 100 minus a tenth of the
    response average, and nothing wraps around. *)
Theorem calculateServiceEfficiency_scale s serviceType :
  let a := aggregateAt s serviceType in
  let total := FHE.plain (encryptedTotalRating a) in
  let count := FHE.plain (encryptedFeedbackCount a) in
  let resp := FHE.plain (encryptedResponseAvg a) in
  let efficiency := FHE.plain (calculateServiceEfficiency s serviceType) in
  in_uint32 total -> in_uint32 count -> count <> 0 ->
  total <= 5 * count -> 0 <= resp <= 1009 ->
  efficiency = 20 * (total / count) + (100 - resp / 10) /\
  0 <= efficiency <= 200.
Proof.
  cbv zeta. intros Ht Hn Hn0 Hfive Hresp.
  unfold calculateServiceEfficiency. cbv zeta.
  set (a := aggregateAt s serviceType) in *.
  assert (Hq : 0 <= FHE.plain (encryptedTotalRating a) /
                    FHE.plain (encryptedFeedbackCount a) <= 5).
  { unfold in_uint32 in *. split; [apply Z.div_pos; lia|].
    apply Z.div_le_upper_bound; lia. }
  assert (Hr : 0 <= FHE.plain (encryptedResponseAvg a) / 10 <= 100).
  { split; [apply Z.div_pos; lia|].
    assert (FHE.plain (encryptedResponseAvg a) / 10 < 101)
      by (apply Z.div_lt_upper_bound; lia).
    lia. }
  rewrite plain_add, plain_mul, plain_sub, plain_average by assumption.
  rewrite plain_div
    by (rewrite plain_asEuint32 by (apply in_uint32_small; lia); lia).
  rewrite !plain_asEuint32 by (apply in_uint32_small; lia).
  rewrite (wrap32_small (_ / 10)) by (apply in_uint32_small; lia).
  rewrite (wrap32_small (_ * 20)) by (apply in_uint32_small; lia).
  rewrite (wrap32_small (100 - _)) by (apply in_uint32_small; lia).
  rewrite wrap32_small by (apply in_uint32_small; lia).
  lia.
Qed.

Lemma calculateServiceEfficiency_scale_witness :
  FHE.plain (calculateServiceEfficiency (stateOf txsUpdated3) 1) =
    20 * (12 / 3) + (100 - 31 / 10) /\
  0 <= FHE.plain (calculateServiceEfficiency (stateOf txsUpdated3) 1) <= 200.
Proof.
  apply (calculateServiceEfficiency_scale (stateOf txsUpdated3) 1);
    vm_compute; try split; congruence.
Defined.
